(** * Alpaca history provider: chunked retrieval pipeline

    Shallow embedding of [src/cli/tester/history-providers/alpaca.ts].

    Modelling conventions.
    - Timestamps are JavaScript numbers holding integral milliseconds since
      the epoch; they are modelled as [Z].  Prices and volumes are only
      carried around, never computed with; they are modelled as [Q].
    - The process environment (time zone, upstream provider, wall clock,
      [Date.parse]) is a record [Env]; the mutable part (files on disk, the
      module-level [now], the number of upstream calls issued so far) is a
      record [World] threaded through every effectful function.
    - Every effectful function also returns the list of observable events it
      produced, in program order.
    - A promise is modelled by the value it settles to ([Settled]).  A per-day
      task is run to completion when it is started: the tasks of one batch
      address pairwise distinct cache paths, so running them one after the
      other yields the same files and the same results as the interleaving
      chosen by the JavaScript event loop.  The model has no pending
      promise: that the array [reqs] is empty says that the array was
      cleared, not that the tasks it held have settled.
    - [Promise.all] is taken to report the rejection of the earliest task of
      the batch.
    - A sleep is recorded with the delay the Node.js timer waits, which is
      the number handed to [setTimeout] only while that number lies between
      1 and 2^31 - 1.
    - The retrieval loops need not terminate; they are modelled with fuel,
      and an exhausted budget is reported as [Diverging]. *)

From Stdlib Require Import ZArith QArith Lia.
From stdpp Require Import base gmap strings list pretty.

Local Open Scope Z_scope.

(** ** Data model *)

(** [Candle] of [@debut/types]. *)
Record Candle := {
  o : Q; h : Q; l : Q; c : Q; v : Q;
  time : Z;
}.

(** The object returned by [Bar#raw()] of the provider client: prices,
    volume, and the timestamp as text. *)
Record RawBar := {
  raw_o : Q; raw_h : Q; raw_l : Q; raw_c : Q; raw_v : Q;
  raw_t : string;
}.

(** [TimeFrame] values are strings at run time. *)
Abbreviation TimeFrame := string (only parsing).

(** Values that can be thrown, or can reject a promise, in this file. *)
Inductive Thrown :=
  | UnsupportedTimeFrame (message : string)
      (* the string thrown by [convertTimeFrame] *)
  | ProviderError (code : option Z) (message : string)
      (* an error object coming from the provider client *)
  | JsonSyntaxError (message : string).
      (* [JSON.parse] on a damaged cache file *)

(** [e.code], read on a thrown value; [None] is [undefined]. *)
Definition code (e : Thrown) : option Z :=
  match e with
  | ProviderError c _ => c
  | _ => None
  end.

(** [e.message], read on a thrown value; a thrown string has none. *)
Definition message (e : Thrown) : option string :=
  match e with
  | UnsupportedTimeFrame _ => None
  | ProviderError _ m => Some m
  | JsonSyntaxError m => Some m
  end.

(** JavaScript truthiness of an optional number. *)
Definition truthy (x : option Z) : bool :=
  match x with
  | None => false
  | Some n => negb (n =? 0)
  end.

(** What [JSON.parse] of a cache file can yield when it is typed as
    [Candle[]]: [null], or an array some of whose entries may be [null]. *)
Abbreviation JsonCandles := (option (list (option Candle))) (only parsing).

(** Text held by a file of the cache directory. *)
Inductive FileText :=
  | EmptyText                       (* the empty string: falsy *)
  | JsonText (value : JsonCandles)  (* well-formed JSON *)
  | DamagedText (why : string).     (* [JSON.parse] throws *)

(** A settled promise of a candle list. *)
Inductive Settled :=
  | Resolved (value : JsonCandles)
  | Rejected (e : Thrown).

Inductive LogLine :=
  | LogHistoryLoadingFrom (from : Z)
  | LogMissedData
  | LogMessage (m : option string).

(** Observable events, in program order. *)
Inductive Event :=
  | EvEnqueue (from to : Z)          (* a per-day task is started *)
  | EvCacheRead (path : string)      (* [file.readFile] *)
  | EvCacheWrite (path : string)     (* [saveDay] *)
  | EvUpstream (symbol : string) (start end_ : Z) (timeframe : string)
                                     (* [alpaca.getBars] *)
  | EvFlush (n : nat) (failure : option Thrown)
                                     (* [await collectCandles(reqs)] over [n]
                                        tasks, and how it settled *)
  | EvSleep (ms : Z)                 (* [setTimeout] awaited; [ms] is the
                                        delay the timer waits *)
  | EvProgressStart (total value : Z)
  | EvProgressUpdate (value : Z)
  | EvProgressStop
  | EvLog (line : LogLine).

(** The part of the process environment the module reads but does not own. *)
Record Env := {
  (** [getTimezoneOffset()], in minutes; the zone has a fixed offset *)
  timezoneOffset : Z;
  (** answer of the provider to the [k]-th call of [alpaca.getBars] *)
  getBars : nat -> string -> Z -> Z -> string -> Thrown + list RawBar;
  (** the instant read by [new Date()] when the [k]-th call has answered *)
  clock : nat -> Z;
  (** [Date.parse] on the provider's timestamps *)
  Date_parse : string -> Z;
}.

(** The mutable state the module works on. *)
Record World := {
  files : gmap string FileText;  (* the cache directory *)
  calls : nat;                   (* upstream calls issued so far *)
  now : Z;                       (* the module-level [now] *)
}.

(** How a retrieval ends. *)
Inductive Outcome (S A : Type) :=
  | Returned (s : S) (a : A)
  | Threw (s : S) (e : Thrown)
  | Diverging (s : S).
Arguments Returned {S A} s a.
Arguments Threw {S A} s e.
Arguments Diverging {S A} s.

(** What one turn of a retrieval loop did. *)
Inductive Step :=
  | Enqueued            (* the task joined the batch in flight *)
  | Committed           (* the batch was flushed and kept *)
  | Failed (e : Thrown) (* the flush failed, the loop goes on *)
  | Rethrown (e : Thrown). (* the flush failed, the error leaves the loop *)

(** ** Number helpers *)

Definition DAY : Z := 86400000.

(** [x | 0] on an integral number: reduction to a signed 32-bit integer. *)
Definition to_int32 (x : Z) : Z := (x + 2 ^ 31) mod 2 ^ 32 - 2 ^ 31.

(** [~~(x / d)] for integral [x] and [d]: the quotient is truncated towards
    zero, then reduced to 32 bits. *)
Definition trunc_div (x d : Z) : Z := to_int32 (Z.quot x d).

(** The first [n] decimals of [r / 10^n], trailing zeros dropped. *)
Fixpoint frac_digits (n : nat) (r : Z) : string :=
  match n with
  | O => ""
  | S n' =>
      if r =? 0 then ""
      else pretty (r / 10 ^ Z.of_nat n') +:+ frac_digits n' (r mod 10 ^ Z.of_nat n')
  end.

(** [`${x / 100000}`]: the decimal text JavaScript prints for the quotient
    (exact for timestamps below 10^15 in magnitude). *)
Definition show_div_100000 (x : Z) : string :=
  let a := Z.abs x in
  (if x <? 0 then "-" else "") +:+ pretty (a / 100000) +:+
  (if a mod 100000 =? 0 then "" else "." +:+ frac_digits 5 (a mod 100000)).

(** ** Calendar helpers of [@debut/plugin-utils] *)

(** Modelled from the spec: [Date#getDay] is not part of this file; day of
    the week (0 is Sunday, 6 is Saturday) of an instant in the local
    calendar frame.  The epoch fell on a Thursday. *)
Definition getDay (E : Env) (d : Z) : Z :=
  ((d - timezoneOffset E * 60 * 1000) / DAY + 4) mod 7.

(** Modelled from the spec: [date.isWeekend] is not part of this file;
    "true for Saturday/Sunday in the request's calendar frame". *)
Definition isWeekend (E : Env) (d : Z) : bool :=
  (getDay E d =? 6) || (getDay E d =? 0).

(** Modelled from the spec: [date.isSameDay] is not part of this file; the
    two instants fall "on the same calendar day". *)
Definition isSameDay (E : Env) (d1 d2 : Z) : bool :=
  (d1 - timezoneOffset E * 60 * 1000) / DAY =? (d2 - timezoneOffset E * 60 * 1000) / DAY.

(** ** Cache files *)

Definition getPath (ticker : string) (interval : TimeFrame) (from to : Z) : string :=
  "history/alpaca/" +:+ ticker +:+ "/" +:+ interval +:+ "/" +:+
  show_div_100000 from +:+ "-" +:+ show_div_100000 to +:+ ".txt".

(** [file.readFile(path)], together with the truthiness test made on it:
    a missing file and an empty file are both misses. *)
Definition readFile (w : World) (path : string) : option FileText :=
  match files w !! path with
  | None | Some EmptyText => None
  | Some t => Some t
  end.

Definition JSON_parse (t : FileText) : Thrown + JsonCandles :=
  match t with
  | EmptyText => inl (JsonSyntaxError "Unexpected end of JSON input")
  | JsonText value => inr value
  | DamagedText why => inl (JsonSyntaxError why)
  end.

(** [file.ensureFile(path); file.saveFile(path, data)]. *)
Definition saveDay (path : string) (data : list Candle) (w : World) : World :=
  {| files := <[path := JsonText (Some (Some <$> data))]> (files w);
     calls := calls w;
     now := now w |}.

(** ** Provider adapter *)

Definition convertTimeFrame (timeframe : TimeFrame) : Thrown + string :=
  if String.eqb timeframe "1min" then inr "1Min"
  else if String.eqb timeframe "1h" then inr "1Hour"
  else if String.eqb timeframe "day" then inr "1Day"
  else inl (UnsupportedTimeFrame
              ("Alpaca integration does not support " +:+ timeframe +:+ " timeframe")).

Definition transformAlpacaCandle (E : Env) (rawBar : RawBar) : Candle :=
  {| o := raw_o rawBar; h := raw_h rawBar; l := raw_l rawBar;
     c := raw_c rawBar; v := raw_v rawBar;
     time := Date_parse E (raw_t rawBar) |}.

(** [requestDay]: the task of one day chunk, run until its promise settles. *)
Definition requestDay (E : Env) (w : World) (from to : Z)
    (ticker : string) (interval : TimeFrame) : World * list Event * Settled :=
  if isWeekend E from then (w, [], Resolved (Some []))
  else
    let path := getPath ticker interval from to in
    match readFile w path with
    | Some historyFile =>
        match JSON_parse historyFile with
        | inr value => (w, [EvCacheRead path], Resolved value)
        | inl e => (w, [EvCacheRead path], Rejected e)
        end
    | None =>
        match convertTimeFrame interval with
        | inl e => (w, [EvCacheRead path], Rejected e)
        | inr timeframe =>
            let k := calls w in
            let w1 := {| files := files w; calls := S k; now := now w |} in
            let called := [EvCacheRead path; EvUpstream ticker from to timeframe] in
            match getBars E k ticker from to timeframe with
            | inl e => (w1, called, Rejected e)
            | inr bars =>
                let result := transformAlpacaCandle E <$> bars in
                if isSameDay E (clock E k) from
                then (w1, called, Resolved (Some (Some <$> result)))
                else (saveDay path result w1, called ++ [EvCacheWrite path],
                      Resolved (Some (Some <$> result)))
            end
        end
    end.

(** The first rejection among the tasks of a batch, if any. *)
Fixpoint first_rejection (reqs : list Settled) : option Thrown :=
  match reqs with
  | [] => None
  | Rejected e :: _ => Some e
  | Resolved _ :: rest => first_rejection rest
  end.

(** The body of the [forEach] of [collectCandles], folded over the values
    the tasks resolved to. *)
Fixpoint concat_days (res : list Settled) : list Event * list Candle :=
  match res with
  | [] => ([], [])
  | Rejected _ :: rest => concat_days rest
  | Resolved None :: rest =>
      let '(evs, result) := concat_days rest in
      (EvLog LogMissedData :: evs, result)
  | Resolved (Some candles) :: rest =>
      let '(evs, result) := concat_days rest in
      (evs, omap id candles ++ result)
  end.

(** [collectCandles]: [Promise.all], then the concatenation of the days. *)
Definition collectCandles (reqs : list Settled) : Thrown + (list Event * list Candle) :=
  match first_rejection reqs with
  | Some e => inl e
  | None => inr (concat_days reqs)
  end.

(** [Math.pow(2, tries) * 10_000] in double precision: the product is a
    power of two times 625, hence exact as long as it is finite, that is up
    to [tries = 1010]; beyond, it is [Infinity], written [None]. *)
Definition backoff_ms (tries : nat) : option Z :=
  if (tries <=? 1010)%nat then Some (2 ^ Z.of_nat tries * 10000) else None.

(** The delay a Node.js timer waits when [setTimeout] is handed [ms]: a
    delay larger than 2147483647 or less than 1 is set to 1. *)
Definition timer_delay (ms : option Z) : Z :=
  match ms with
  | Some d => if (1 <=? d) && (d <=? 2147483647) then d else 1
  | None => 1
  end.

Arguments backoff_ms : simpl never.
Arguments timer_delay : simpl never.

(** [!chunkStart]: the variable is [undefined], or holds zero. *)
Definition unset (chunkStart : option Z) : bool := negb (truthy chunkStart).

(** ** Explicit-range entry point *)

Module IntervalAlpaca.

Record HistoryIntervalOptions := {
  ticker : string;
  start : Z;
  end_ : Z;
  interval : TimeFrame;
}.

(** The local variables of [getHistoryIntervalAlpaca], the world and the
    events produced so far. *)
Record Locals := {
  from : Z;
  to : Z;
  chunkStart : option Z;
  tries : nat;
  reqs : list Settled;
  result : list Candle;
  world : World;
  log : list Event;
}.

(** [start] after line 29. *)
Definition normalized_start (E : Env) (opts : HistoryIntervalOptions) : Z :=
  trunc_div (start opts) 86400000 * 86400000 - timezoneOffset E * 60 * 1000.

(** [end] after line 30. *)
Definition normalized_end (opts : HistoryIntervalOptions) : Z :=
  trunc_div (end_ opts) 86400000 * 86400000.

Definition initial (E : Env) (w : World) (opts : HistoryIntervalOptions) : Locals :=
  {| from := normalized_start E opts;
     to := normalized_start E opts;
     chunkStart := None;
     tries := 0;
     reqs := [];
     result := [];
     world := w;
     log := [] |}.

(** One turn of the [while] loop: the [try] block and, when the flush
    fails, the [catch] block. *)
Definition iteration (E : Env) (opts : HistoryIntervalOptions) (s : Locals)
    : Step * Locals :=
  let end' := normalized_end opts in
  let to' := from s + 86400 * 1000 in
  let chunkStart' :=
    if unset (chunkStart s) then from s else default (from s) (chunkStart s) in
  let '(w1, evs, promise) :=
    requestDay E (world s) (from s) to' (ticker opts) (interval opts) in
  let reqs' := reqs s ++ [promise] in
  let log' := log s ++ EvEnqueue (from s) to' :: evs in
  if (length reqs' =? 50)%nat || (to' >=? end') then
    match collectCandles reqs' with
    | inr (missed, data) =>
        (Committed,
         {| from := to'; to := to'; chunkStart := Some to'; tries := 0;
            reqs := []; result := result s ++ data; world := w1;
            log := log' ++ EvFlush (length reqs') None :: missed |})
    | inl e =>
        let tries' := S (tries s) in
        (Failed e,
         {| from := chunkStart'; to := to'; chunkStart := Some chunkStart';
            tries := tries'; reqs := []; result := result s; world := w1;
            log := log' ++ [EvFlush (length reqs') (Some e);
                            EvSleep (timer_delay (backoff_ms tries'))] |})
    end
  else
    (Enqueued,
     {| from := to'; to := to'; chunkStart := Some chunkStart';
        tries := tries s; reqs := reqs'; result := result s; world := w1;
        log := log' |}).

(** [while (to <= end) { ... }] *)
Fixpoint loop (E : Env) (opts : HistoryIntervalOptions) (fuel : nat) (s : Locals)
    : Outcome Locals unit :=
  if to s <=? normalized_end opts then
    match fuel with
    | O => Diverging s
    | S fuel' => loop E opts fuel' (snd (iteration E opts s))
    end
  else Returned s tt.

Definition getHistoryIntervalAlpaca (E : Env) (fuel : nat) (w : World)
    (opts : HistoryIntervalOptions) : Outcome Locals (list Candle) :=
  let filterFrom := start opts in
  let filterTo := end_ opts in
  match loop E opts fuel (initial E w opts) with
  | Returned s _ =>
      Returned s
        (List.filter
           (fun candle => (time candle >=? filterFrom) && (time candle <=? filterTo))
           (result s))
  | Threw s e => Threw s e
  | Diverging s => Diverging s
  end.

End IntervalAlpaca.

(** ** Fixed-window entry point *)

Module FromAlpaca.

Record HistoryOptions := {
  ticker : string;
  days : Z;
  interval : TimeFrame;
  gapDays : Z;
}.

(** The local variables of [getHistoryFromAlpaca], the world and the
    events produced so far. *)
Record Locals := {
  from : Z;
  to : Z;
  chunkStart : option Z;
  tries : nat;
  reqs : list Settled;
  result : list Candle;
  progressValue : Z;
  world : World;
  log : list Event;
}.

(** [now] after lines 75-78: midnight of its day in the local frame. *)
Definition midnight (E : Env) (t : Z) : Z :=
  (t - timezoneOffset E * 60 * 1000) / DAY * DAY + timezoneOffset E * 60 * 1000.

(** [from] as initialised on line 81. *)
Definition window_start (E : Env) (w : World) (opts : HistoryOptions) : Z :=
  midnight E (now w) - timezoneOffset E * 60 * 1000 - 86400000 * gapDays opts
  - 86400000 * days opts.

(** [end] when the loop is entered, after lines 80 and 91-93. *)
Definition window_end (E : Env) (w : World) (opts : HistoryOptions) : Z :=
  let end' :=
    midnight E (now w) - timezoneOffset E * 60 * 1000 - 86400000 * gapDays opts in
  if gapDays opts =? 0 then end' - 900000 else end'.

Definition initial (E : Env) (w : World) (opts : HistoryOptions) : Locals :=
  let from' := window_start E w opts in
  {| from := from';
     to := from';
     chunkStart := None;
     tries := 0;
     reqs := [];
     result := [];
     progressValue := 0;
     world := {| files := files w; calls := calls w; now := midnight E (now w) |};
     log := [EvLog (LogHistoryLoadingFrom from'); EvProgressStart (days opts) 0] |}.

(** One turn of the [while] loop: the [try] block and, when the flush
    fails, the [catch] block. *)
Definition iteration (E : Env) (opts : HistoryOptions) (end' : Z) (s : Locals)
    : Step * Locals :=
  let to' := from s + 86400 * 1000 in
  let chunkStart' :=
    if unset (chunkStart s) then from s else default (from s) (chunkStart s) in
  let '(w1, evs, promise) :=
    requestDay E (world s) (from s) to' (ticker opts) (interval opts) in
  let reqs' := reqs s ++ [promise] in
  let log' := log s ++ EvEnqueue (from s) to' :: evs in
  let progressValue' := progressValue s + 1 in
  if (length reqs' =? 50)%nat || (to' >=? end') then
    match collectCandles reqs' with
    | inr (missed, data) =>
        (Committed,
         {| from := to'; to := to'; chunkStart := Some to'; tries := 0;
            reqs := []; result := result s ++ data;
            progressValue := progressValue'; world := w1;
            log := log' ++ EvFlush (length reqs') None :: missed
                        ++ [EvProgressUpdate progressValue'] |})
    | inl e =>
        let tries' := S (tries s) in
        let rolledBack := progressValue s - (Z.of_nat (length reqs') - 1) in
        let caught (st : Step) (last : Event) :=
          (st,
           {| from := chunkStart'; to := to'; chunkStart := Some chunkStart';
              tries := tries'; reqs := []; result := result s;
              progressValue := rolledBack; world := w1;
              log := log' ++ [EvFlush (length reqs') (Some e);
                              EvProgressUpdate rolledBack; last] |}) in
        if truthy (code e) || negb (truthy (code e))
        then caught (Rethrown e) (EvLog (LogMessage (message e)))
        else caught (Failed e) (EvSleep (timer_delay (backoff_ms tries')))
    end
  else
    (Enqueued,
     {| from := to'; to := to'; chunkStart := Some chunkStart';
        tries := tries s; reqs := reqs'; result := result s;
        progressValue := progressValue'; world := w1;
        log := log' ++ [EvProgressUpdate progressValue'] |}).

(** [while (to <= end) { ... }]; an error rethrown by the [catch] block
    leaves the loop. *)
Fixpoint loop (E : Env) (opts : HistoryOptions) (end' : Z) (fuel : nat) (s : Locals)
    : Outcome Locals unit :=
  if to s <=? end' then
    match fuel with
    | O => Diverging s
    | S fuel' =>
        match iteration E opts end' s with
        | (Rethrown e, s') => Threw s' e
        | (_, s') => loop E opts end' fuel' s'
        end
    end
  else Returned s tt.

Definition getHistoryFromAlpaca (E : Env) (fuel : nat) (w : World)
    (opts : HistoryOptions) : Outcome Locals (list Candle) :=
  match loop E opts (window_end E w opts) fuel (initial E w opts) with
  | Returned s _ =>
      Returned
        {| from := from s; to := to s; chunkStart := chunkStart s;
           tries := tries s; reqs := reqs s; result := result s;
           progressValue := progressValue s; world := world s;
           log := log s ++ [EvProgressUpdate (days opts); EvProgressStop] |}
        (result s)
  | Threw s e => Threw s e
  | Diverging s => Diverging s
  end.

End FromAlpaca.

(** ** Reading event logs *)

(** The state an outcome carries. *)
Definition final {S A : Type} (out : Outcome S A) : S :=
  match out with
  | Returned s _ | Threw s _ | Diverging s => s
  end.

(** The day chunks for which a task was started, in order. *)
Definition chunks (evs : list Event) : list (Z * Z) :=
  omap (fun ev => match ev with EvEnqueue a b => Some (a, b) | _ => None end) evs.

(** The sizes of the batches that were flushed, in order. *)
Definition flushes (evs : list Event) : list nat :=
  omap (fun ev => match ev with EvFlush n _ => Some n | _ => None end) evs.

(** The positions handed to [progress.update], in order. *)
Definition updates (evs : list Event) : list Z :=
  omap (fun ev => match ev with EvProgressUpdate p => Some p | _ => None end) evs.

(** The steps by which the reported position moved, starting from [p]. *)
Fixpoint increments (p : Z) (positions : list Z) : list Z :=
  match positions with
  | [] => []
  | q :: rest => (q - p) :: increments q rest
  end.

(** Events a per-day task can produce. *)
Definition is_fetch_event (ev : Event) : bool :=
  match ev with
  | EvCacheRead _ | EvCacheWrite _ | EvUpstream _ _ _ _ => true
  | _ => false
  end.

Definition is_upstream (ev : Event) : bool :=
  match ev with EvUpstream _ _ _ _ => true | _ => false end.

Definition is_sleep (ev : Event) : bool :=
  match ev with EvSleep _ => true | _ => false end.

Definition is_failed_flush (ev : Event) : bool :=
  match ev with EvFlush _ (Some _) => true | _ => false end.

(** The one-day chunks [m] turns of a loop produce from cursor [b]. *)
Fixpoint day_chunks (b : Z) (m : nat) : list (Z * Z) :=
  match m with
  | O => []
  | S m' => (b, b + DAY) :: day_chunks (b + DAY) m'
  end.

(** The batch sizes [m] turns of a loop flush when no flush fails, with [k]
    tasks in flight and [rel] milliseconds left between the cursor and the
    end of the range. *)
Fixpoint batches (m k : nat) (rel : Z) : list nat :=
  match m with
  | O => []
  | S m' =>
      if (S k =? 50)%nat || (DAY >=? rel)
      then S k :: batches m' 0 (rel - DAY)
      else batches m' (S k) (rel - DAY)
  end.

(** The positions [m] turns of the fixed-window loop report from [p]. *)
Fixpoint positions (p : Z) (m : nat) : list Z :=
  match m with
  | O => []
  | S m' => (p + 1) :: positions (p + 1) m'
  end.

(** Checks a log against the backoff rule: a failed flush is followed at
    once by the sleep the timer makes of [2^n * 10000] ms, [n] being the
    number of flushes that failed since the last one that was kept; nothing
    else sleeps. *)
Fixpoint backoff (n : nat) (evs : list Event) : bool :=
  match evs with
  | [] => true
  | EvFlush _ None :: rest => backoff 0 rest
  | EvFlush _ (Some _) :: rest =>
      match rest with
      | EvSleep ms :: rest' =>
          (ms =? timer_delay (backoff_ms (S n))) && backoff (S n) rest'
      | _ => false
      end
  | EvSleep _ :: _ => false
  | _ :: rest => backoff n rest
  end.

(** The number of flushes that failed since the last one that was kept. *)
Fixpoint failures (n : nat) (evs : list Event) : nat :=
  match evs with
  | [] => n
  | EvFlush _ None :: rest => failures 0 rest
  | EvFlush _ (Some _) :: rest => failures (S n) rest
  | _ :: rest => failures n rest
  end.

(** ** Conditions on the environment *)

(** The provider answers every call. *)
Definition reliable (E : Env) : Prop :=
  forall k symbol a b timeframe,
    exists bars, getBars E k symbol a b timeframe = inr bars.

(** The time frame is one the provider adapter translates. *)
Definition supported (interval : TimeFrame) : Prop :=
  exists timeframe, convertTimeFrame interval = inr timeframe.

(** No cache file is damaged. *)
Definition readable (w : World) : Prop :=
  forall path why, files w !! path <> Some (DamagedText why).

(** [n] turns of the explicit-range loop, whatever the loop test says. *)
Fixpoint turns (E : Env) (opts : IntervalAlpaca.HistoryIntervalOptions) (n : nat)
    (s : IntervalAlpaca.Locals) : IntervalAlpaca.Locals :=
  match n with
  | O => s
  | S n' => turns E opts n' (snd (IntervalAlpaca.iteration E opts s))
  end.

(** The delays handed to the timer, in order. *)
Definition delays (evs : list Event) : list Z :=
  omap (fun ev => match ev with EvSleep ms => Some ms | _ => None end) evs.

(** ** Invariants of the loops *)

(** An event that is neither a backoff sleep nor a failed flush. *)
Definition quiet (ev : Event) : Prop :=
  is_sleep ev = false /\ is_failed_flush ev = false.

(** How a log ends when the fixed-window [catch] block rethrows [e]. *)
Definition ends_rethrown (s : FromAlpaca.Locals) (n : nat) (e : Thrown) : Prop :=
  exists pre,
    Forall quiet pre /\
    FromAlpaca.log s =
      pre ++ [EvFlush n (Some e);
              EvProgressUpdate (FromAlpaca.progressValue s);
              EvLog (LogMessage (message e))].

(** An event that is neither a flush nor a sleep. *)
Definition neutral (ev : Event) : Prop :=
  match ev with
  | EvFlush _ _ | EvSleep _ => False
  | _ => True
  end.

(** The log of the explicit-range loop obeys the backoff rule, and [tries]
    counts the failed flushes since the last one that was kept. *)
Definition backoff_invariant (s : IntervalAlpaca.Locals) : Prop :=
  backoff 0 (IntervalAlpaca.log s) = true /\
  failures 0 (IntervalAlpaca.log s) = IntervalAlpaca.tries s.

(** The checkpoint designates [b]: either it is still unset and the cursor
    is at [b], or it holds [b]. *)
Definition checkpoint_is (b : Z) (s : IntervalAlpaca.Locals) : Prop :=
  (IntervalAlpaca.chunkStart s = None /\ IntervalAlpaca.from s = b) \/
  IntervalAlpaca.chunkStart s = Some b.

(** ** Invariants of whole runs *)

(** [x] lies a whole number of days after [b]. *)
Definition on_grid (b x : Z) : Prop := exists k, 0 <= k /\ x = b + k * DAY.

(** A chunk the explicit-range loop may start: one day long, a whole number
    of days after [b], beginning no later than [e]. *)
Definition day_within (b e : Z) (chunk : Z * Z) : Prop :=
  chunk.2 = chunk.1 + DAY /\ on_grid b chunk.1 /\ chunk.1 <= e.

(** What holds of the locals of the explicit-range loop at every loop test:
    the array [reqs] holds fewer than 50 promises, and none once the cursor
    has reached the end; cursor and checkpoint sit on the grid of days, the checkpoint
    not after the cursor; every flush took between 1 and 50 tasks; every
    chunk started is a day of the range. *)
Definition interval_steady (E : Env) (opts : IntervalAlpaca.HistoryIntervalOptions)
    (s : IntervalAlpaca.Locals) : Prop :=
  let b := IntervalAlpaca.normalized_start E opts in
  let e := IntervalAlpaca.normalized_end opts in
  (length (IntervalAlpaca.reqs s) < 50)%nat /\
  (IntervalAlpaca.reqs s = [] \/ IntervalAlpaca.to s < e) /\
  on_grid b (IntervalAlpaca.from s) /\
  IntervalAlpaca.from s <= IntervalAlpaca.to s /\
  (forall cs, IntervalAlpaca.chunkStart s = Some cs ->
              on_grid b cs /\ cs <= IntervalAlpaca.from s) /\
  Forall (fun n => 1 <= n <= 50)%nat (flushes (IntervalAlpaca.log s)) /\
  Forall (day_within b e) (chunks (IntervalAlpaca.log s)).

(** The days of the batches that were flushed and kept. *)
Fixpoint kept_days (evs : list Event) : Z :=
  match evs with
  | [] => 0
  | EvFlush n None :: rest => Z.of_nat n + kept_days rest
  | _ :: rest => kept_days rest
  end.

(** What holds of the locals of the fixed-window loop at every loop test,
    and when an error leaves the loop: the array [reqs] holds fewer than 50
    promises, and none once the cursor has reached the end; the progress
    position is the number of days kept plus the length of [reqs]; every
    flush took between 1 and 50 promises. *)
Definition window_steady (end' : Z) (s : FromAlpaca.Locals) : Prop :=
  (length (FromAlpaca.reqs s) < 50)%nat /\
  (FromAlpaca.reqs s = [] \/ FromAlpaca.to s < end') /\
  FromAlpaca.progressValue s
    = kept_days (FromAlpaca.log s) + Z.of_nat (length (FromAlpaca.reqs s)) /\
  Forall (fun n => 1 <= n <= 50)%nat (flushes (FromAlpaca.log s)).

(** The explicit-range loop is caught in a batch that cannot succeed: the
    world is still [w], the cursor is [n] days after [b] with [n < 50]
    tasks in flight and has not passed [e'], the checkpoint designates [b],
    and a task in flight has been rejected with [err] unless the batch is
    only beginning. *)
Definition stuck (w : World) (b e' : Z) (err : Thrown) (s : IntervalAlpaca.Locals)
    : Prop :=
  IntervalAlpaca.world s = w /\
  IntervalAlpaca.to s <= e' /\
  (length (IntervalAlpaca.reqs s) < 50)%nat /\
  IntervalAlpaca.from s = b + Z.of_nat (length (IntervalAlpaca.reqs s)) * DAY /\
  checkpoint_is b s /\
  (IntervalAlpaca.reqs s = [] \/ first_rejection (IntervalAlpaca.reqs s) = Some err).

(** ** Days served without the provider *)

(** The candles a resolved task contributes to a batch. *)
Definition candles_of (value : option (list (option Candle))) : list Candle :=
  match value with
  | Some candles => omap id candles
  | None => []
  end.

(** What the task of the day that starts at [a] resolves to when it needs
    no provider: the empty list on a weekend day, otherwise the value held
    by the cache file of the day, if there is one. *)
Definition served_value (E : Env) (w : World) (ticker : string) (interval : TimeFrame)
    (a : Z) : option (option (list (option Candle))) :=
  if isWeekend E a then Some (Some [])
  else
    match files w !! getPath ticker interval a (a + DAY) with
    | Some (JsonText value) => Some value
    | _ => None
    end.

(** The candles that the days [days] yield when each is served without the
    provider. *)
Definition served_candles (E : Env) (w : World) (ticker : string) (interval : TimeFrame)
    (days : list (Z * Z)) : list Candle :=
  flat_map (fun day => candles_of (default None (served_value E w ticker interval day.1)))
           days.

(** No day that begins at or before [e'] is the current day, whenever the
    clock is read. *)
Definition historical (E : Env) (e' : Z) : Prop :=
  forall k a, a <= e' -> isSameDay E (clock E k) a = false.

(** What holds of the explicit-range loop as long as no task fails and the
    range is historical: cursor and end of chunk coincide, no task in
    flight is rejected, no cache file is damaged, every day started so far
    can now be served without the provider, and the candles committed or
    in flight are those the days started so far are served with. *)
Definition replayable (E : Env) (opts : IntervalAlpaca.HistoryIntervalOptions)
    (s : IntervalAlpaca.Locals) : Prop :=
  let ticker := IntervalAlpaca.ticker opts in
  let interval := IntervalAlpaca.interval opts in
  IntervalAlpaca.to s = IntervalAlpaca.from s /\
  first_rejection (IntervalAlpaca.reqs s) = None /\
  readable (IntervalAlpaca.world s) /\
  Forall (fun day => day.2 = day.1 + DAY /\
                     is_Some (served_value E (IntervalAlpaca.world s) ticker interval day.1))
         (chunks (IntervalAlpaca.log s)) /\
  IntervalAlpaca.result s ++ (concat_days (IntervalAlpaca.reqs s)).2
  = served_candles E (IntervalAlpaca.world s) ticker interval
      (chunks (IntervalAlpaca.log s)).

(** Events of a task that is served without the provider. *)
Definition is_offline (ev : Event) : bool :=
  match ev with
  | EvUpstream _ _ _ _ | EvCacheWrite _ => false
  | _ => true
  end.

(** What holds of a second explicit-range retrieval over days that are
    all served without the provider: the world is still [w] and no event
    is a provider call or a cache write. *)
Definition replaying (E : Env) (opts : IntervalAlpaca.HistoryIntervalOptions)
    (w : World) (s : IntervalAlpaca.Locals) : Prop :=
  interval_steady E opts s /\
  IntervalAlpaca.world s = w /\
  Forall (fun ev => is_offline ev = true) (IntervalAlpaca.log s).

(** The candles a settled task contributes to a batch that is kept. *)
Definition contribution (req : Settled) : list Candle :=
  match req with
  | Resolved value => candles_of value
  | Rejected _ => []
  end.

(** The task resolved to [null]. *)
Definition is_missed (req : Settled) : bool :=
  match req with
  | Resolved None => true
  | _ => false
  end.

(** ** Test fixtures *)

Module Fixture.

(** 2021-01-04T00:00:00Z, a Monday. *)
Definition monday : Z := 1609718400000.

Definition bar (t : string) : RawBar :=
  {| raw_o := 1; raw_h := 2; raw_l := 1; raw_c := 2; raw_v := 100; raw_t := t |}.

Definition parse (t : string) : Z :=
  if String.eqb t "2021-01-04T14:30:00Z" then monday + 52200000
  else if String.eqb t "2021-01-05T14:30:00Z" then monday + DAY + 52200000
  else if String.eqb t "1970-01-01T14:30:00Z" then 52200000
  else 0.

(** One bar for the Monday, one for the Tuesday, one for the first day of
    the epoch, none for any other day. *)
Definition bars_of (a : Z) : list RawBar :=
  if a =? monday then [bar "2021-01-04T14:30:00Z"]
  else if a =? monday + DAY then [bar "2021-01-05T14:30:00Z"]
  else if a =? 0 then [bar "1970-01-01T14:30:00Z"]
  else [].

(** A process in UTC, on 2021-03-05, with a provider that always answers. *)
Definition utc : Env :=
  {| timezoneOffset := 0;
     getBars := fun _ _ a _ _ => inr (bars_of a);
     clock := fun _ => monday + 60 * DAY + 3600000;
     Date_parse := parse |}.

(** The same process, with a provider whose second answer is an error. *)
Definition flaky : Env :=
  {| timezoneOffset := 0;
     getBars := fun k _ a _ _ =>
       if (k =? 1)%nat then inl (ProviderError (Some 429) "too many requests")
       else inr (bars_of a);
     clock := fun _ => monday + 60 * DAY + 3600000;
     Date_parse := parse |}.

(** The same process, with a provider whose first three answers are
    errors. *)
Definition stubborn : Env :=
  {| timezoneOffset := 0;
     getBars := fun k _ a _ _ =>
       if (k <? 3)%nat then inl (ProviderError None "service unavailable")
       else inr (bars_of a);
     clock := fun _ => monday + 60 * DAY + 3600000;
     Date_parse := parse |}.

(** The same process, with a provider that never answers. *)
Definition down : Env :=
  {| timezoneOffset := 0;
     getBars := fun _ _ _ _ _ => inl (ProviderError None "service unavailable");
     clock := fun _ => monday + 60 * DAY + 3600000;
     Date_parse := parse |}.

(** Nothing cached, nothing called yet, module loaded on 2021-03-05. *)
Definition fresh : World :=
  {| files := ∅; calls := 0; now := monday + 60 * DAY + 3600000 |}.

Definition range (a b : Z) (interval : TimeFrame)
    : IntervalAlpaca.HistoryIntervalOptions :=
  {| IntervalAlpaca.ticker := "AAPL";
     IntervalAlpaca.start := a;
     IntervalAlpaca.end_ := b;
     IntervalAlpaca.interval := interval |}.

Definition window (days gapDays : Z) (interval : TimeFrame)
    : FromAlpaca.HistoryOptions :=
  {| FromAlpaca.ticker := "AAPL";
     FromAlpaca.days := days;
     FromAlpaca.interval := interval;
     FromAlpaca.gapDays := gapDays |}.

End Fixture.

(** * Properties *)

(** Case analysis on membership in a list given by its elements. *)
Ltac elem_cases H :=
  repeat (apply elem_of_cons in H as [H | H]; [try discriminate H |]);
  try (by apply not_elem_of_nil in H).

(** ** The per-day task *)

Lemma requestDay_events E w from to ticker interval :
  Forall (fun ev => is_fetch_event ev = true)
         (requestDay E w from to ticker interval).1.2.
Proof.
  unfold requestDay.
  destruct (isWeekend E from); [constructor |].
  destruct (readFile w _) as [t |].
  - destruct (JSON_parse t); repeat constructor.
  - destruct (convertTimeFrame interval) as [e | tf]; [repeat constructor |].
    destruct (getBars E _ _ _ _ _); [repeat constructor |].
    destruct (isSameDay E _ _); repeat constructor.
Qed.

(** C8.  A day chunk that starts on a Saturday or a Sunday resolves to the
    empty candle list; the task produces no event at all (no cache read, no
    upstream call, no cache write) and leaves the world as it was. *)
Theorem C8_weekend_chunk_is_skipped E w from to ticker interval :
  getDay E from = 6 \/ getDay E from = 0 ->
  requestDay E w from to ticker interval = (w, [], Resolved (Some [])).
Proof.
  intros Hday. unfold requestDay, isWeekend.
  destruct Hday as [-> | ->]; reflexivity.
Qed.

Lemma C8_witness :
  getDay Fixture.utc (Fixture.monday + 5 * DAY) = 6 /\
  requestDay Fixture.utc Fixture.fresh (Fixture.monday + 5 * DAY)
    (Fixture.monday + 6 * DAY) "AAPL" "day"
  = (Fixture.fresh, [], Resolved (Some [])).
Proof.
  split; [reflexivity |].
  apply C8_weekend_chunk_is_skipped. left. reflexivity.
Defined.

(** C9.  A day chunk that is no weekend day, has no cache file and is
    answered by the provider resolves to the transformed bars.  When the
    chunk starts on the current calendar day the files are left as they
    were and nothing is written; otherwise the transformed bars are saved
    under the path of the chunk before the task returns. *)
Theorem C9_today_is_not_cached E w from to ticker interval timeframe bars :
  isWeekend E from = false ->
  readFile w (getPath ticker interval from to) = None ->
  convertTimeFrame interval = inr timeframe ->
  getBars E (calls w) ticker from to timeframe = inr bars ->
  let path := getPath ticker interval from to in
  let result := transformAlpacaCandle E <$> bars in
  let '(w', evs, settled) := requestDay E w from to ticker interval in
  settled = Resolved (Some (Some <$> result)) /\
  if isSameDay E (clock E (calls w)) from
  then files w' = files w /\ (forall p, EvCacheWrite p ∉ evs)
  else files w' = <[path := JsonText (Some (Some <$> result))]> (files w) /\
       evs = [EvCacheRead path; EvUpstream ticker from to timeframe; EvCacheWrite path].
Proof.
  intros Hwe Hmiss Htf Hbars. unfold requestDay.
  rewrite Hwe, Hmiss, Htf, Hbars.
  destruct (isSameDay E _ _); simpl.
  - split; [reflexivity |]. split; [reflexivity |].
    intros p Hin. elem_cases Hin.
  - repeat split; reflexivity.
Qed.

Lemma C9_witness :
  let today := Fixture.monday + 60 * DAY in
  isWeekend Fixture.utc today = false /\
  let '(w', evs, settled) :=
    requestDay Fixture.utc Fixture.fresh today (today + DAY) "AAPL" "day" in
  settled = Resolved (Some (Some <$> (transformAlpacaCandle Fixture.utc <$> []))) /\
  if isSameDay Fixture.utc (clock Fixture.utc (calls Fixture.fresh)) today
  then files w' = files Fixture.fresh /\ (forall p, EvCacheWrite p ∉ evs)
  else files w' =
         <[getPath "AAPL" "day" today (today + DAY) :=
             JsonText (Some (Some <$> (transformAlpacaCandle Fixture.utc <$> [])))]>
           (files Fixture.fresh) /\
       evs = [EvCacheRead (getPath "AAPL" "day" today (today + DAY));
              EvUpstream "AAPL" today (today + DAY) "1Day";
              EvCacheWrite (getPath "AAPL" "day" today (today + DAY))].
Proof.
  intros today. split; [reflexivity |].
  apply (C9_today_is_not_cached Fixture.utc Fixture.fresh today (today + DAY)
           "AAPL" "day" "1Day" []); vm_compute; reflexivity.
Defined.

(** A past day is written to the cache, the current day is not. *)
Example past_day_is_cached :
  let '(w', evs, _) :=
    requestDay Fixture.utc Fixture.fresh Fixture.monday (Fixture.monday + DAY)
      "AAPL" "day" in
  is_Some (files w' !! "history/alpaca/AAPL/day/16097184-16098048.txt") /\
  EvCacheWrite "history/alpaca/AAPL/day/16097184-16098048.txt" ∈ evs.
Proof. vm_compute. split; [eauto | set_solver]. Qed.

(** ** Explicit-range entry point *)

(** C10.  When the normalised start lies strictly after the normalised end
    the loop body never runs: the empty list is returned, no event is
    produced (no upstream call, no cache access) and the world is left as
    it was, whatever the fuel. *)
Theorem C10_empty_range E fuel w opts :
  IntervalAlpaca.normalized_start E opts > IntervalAlpaca.normalized_end opts ->
  exists s,
    IntervalAlpaca.getHistoryIntervalAlpaca E fuel w opts = Returned s [] /\
    IntervalAlpaca.log s = [] /\
    IntervalAlpaca.world s = w.
Proof.
  intros Hgt. exists (IntervalAlpaca.initial E w opts).
  unfold IntervalAlpaca.getHistoryIntervalAlpaca.
  assert (Hexit : IntervalAlpaca.loop E opts fuel (IntervalAlpaca.initial E w opts)
                  = Returned (IntervalAlpaca.initial E w opts) tt).
  { destruct fuel; simpl;
      (destruct (Z.leb_spec (IntervalAlpaca.normalized_start E opts)
                            (IntervalAlpaca.normalized_end opts)); [lia | reflexivity]). }
  rewrite Hexit. simpl. repeat split.
Qed.

Lemma C10_witness :
  IntervalAlpaca.normalized_start Fixture.utc
    (Fixture.range (Fixture.monday + 2 * DAY) Fixture.monday "day")
  > IntervalAlpaca.normalized_end
      (Fixture.range (Fixture.monday + 2 * DAY) Fixture.monday "day") /\
  exists s,
    IntervalAlpaca.getHistoryIntervalAlpaca Fixture.utc 0 Fixture.fresh
      (Fixture.range (Fixture.monday + 2 * DAY) Fixture.monday "day")
    = Returned s [] /\
    IntervalAlpaca.log s = [] /\
    IntervalAlpaca.world s = Fixture.fresh.
Proof.
  split; [reflexivity |].
  apply C10_empty_range. reflexivity.
Defined.

(** C7.  Whenever the explicit-range entry point returns, every candle of
    the returned list is stamped within the closed interval from the start
    to the end of the request as they were passed in. *)
Theorem C7_returned_candles_in_bounds E fuel w opts s candles :
  IntervalAlpaca.start opts <= IntervalAlpaca.end_ opts ->
  IntervalAlpaca.getHistoryIntervalAlpaca E fuel w opts = Returned s candles ->
  Forall (fun candle =>
            IntervalAlpaca.start opts <= time candle <= IntervalAlpaca.end_ opts)
         candles.
Proof.
  intros _ Hret. unfold IntervalAlpaca.getHistoryIntervalAlpaca in Hret.
  destruct (IntervalAlpaca.loop E opts fuel _) as [s' [] | |]; try discriminate.
  injection Hret as _ <-.
  apply List.Forall_forall. intros candle Hin.
  apply List.filter_In in Hin as [_ Hin].
  apply andb_true_iff in Hin as [Hge Hle]. lia.
Qed.

Lemma C7_witness :
  let opts :=
    Fixture.range (Fixture.monday + 52200001) (Fixture.monday + 2 * DAY) "day" in
  exists s candles,
    IntervalAlpaca.getHistoryIntervalAlpaca Fixture.utc 5 Fixture.fresh opts
      = Returned s candles /\
    time <$> candles = [Fixture.monday + DAY + 52200000] /\
    Forall (fun candle =>
              IntervalAlpaca.start opts <= time candle <= IntervalAlpaca.end_ opts)
           candles.
Proof.
  intros opts. eexists _, _.
  split; [vm_compute; reflexivity |]. split; [reflexivity |].
  eapply (C7_returned_candles_in_bounds Fixture.utc 5 Fixture.fresh opts);
    [vm_compute; discriminate | vm_compute; reflexivity].
Defined.

(** ** Event logs *)

Lemma chunks_app evs1 evs2 : chunks (evs1 ++ evs2) = chunks evs1 ++ chunks evs2.
Proof. apply omap_app. Qed.

Lemma flushes_app evs1 evs2 : flushes (evs1 ++ evs2) = flushes evs1 ++ flushes evs2.
Proof. apply omap_app. Qed.

Lemma updates_app evs1 evs2 : updates (evs1 ++ evs2) = updates evs1 ++ updates evs2.
Proof. apply omap_app. Qed.

Lemma fetch_events_silent evs :
  Forall (fun ev => is_fetch_event ev = true) evs ->
  chunks evs = [] /\ flushes evs = [] /\ updates evs = [].
Proof.
  induction 1 as [| ev evs Hev _ (IHc & IHf & IHu)]; [done |].
  destruct ev; try discriminate; simpl; auto.
Qed.

Lemma concat_days_events res :
  Forall (fun ev => ev = EvLog LogMissedData) (concat_days res).1.
Proof.
  induction res as [| [[candles |] | e] res IH]; simpl; auto.
  - destruct (concat_days res). assumption.
  - destruct (concat_days res). constructor; auto.
Qed.

Lemma missed_events_silent evs :
  Forall (fun ev => ev = EvLog LogMissedData) evs ->
  chunks evs = [] /\ flushes evs = [] /\ updates evs = [].
Proof.
  induction 1 as [| ev evs -> _ (IHc & IHf & IHu)]; [done |]. simpl; auto.
Qed.

Lemma first_rejection_app reqs1 reqs2 :
  first_rejection (reqs1 ++ reqs2) =
  match first_rejection reqs1 with
  | Some e => Some e
  | None => first_rejection reqs2
  end.
Proof.
  induction reqs1 as [| [value | e] reqs1 IH]; simpl; auto.
Qed.

(** ** Runs without failure *)

Lemma saveDay_readable path data w : readable w -> readable (saveDay path data w).
Proof.
  intros Hw p why. unfold saveDay; simpl.
  destruct (decide (path = p)) as [-> | Hne].
  - rewrite lookup_insert_eq. discriminate.
  - rewrite lookup_insert_ne by done. apply Hw.
Qed.

(** With a provider that answers, a supported time frame and no damaged
    cache file, the task of any day resolves. *)
Lemma requestDay_resolves E w from to ticker interval :
  reliable E -> supported interval -> readable w ->
  exists w1 evs value,
    requestDay E w from to ticker interval = (w1, evs, Resolved value) /\
    readable w1.
Proof.
  intros Hrel [tf Htf] Hw. unfold requestDay.
  destruct (isWeekend E from); [by eauto |].
  unfold readFile.
  destruct (files w !! getPath ticker interval from to) as [[| value | why] |] eqn:Hfile.
  - rewrite Htf. destruct (Hrel (calls w) ticker from to tf) as [bars ->].
    destruct (isSameDay E _ _); do 3 eexists; split; try reflexivity.
    + exact Hw.
    + apply saveDay_readable. exact Hw.
  - simpl. by eauto.
  - exfalso. by apply (Hw _ _ Hfile).
  - rewrite Htf. destruct (Hrel (calls w) ticker from to tf) as [bars ->].
    destruct (isSameDay E _ _); do 3 eexists; split; try reflexivity.
    + exact Hw.
    + apply saveDay_readable. exact Hw.
Qed.

Lemma collect_resolved reqs value :
  first_rejection reqs = None ->
  collectCandles (reqs ++ [Resolved value]) = inr (concat_days (reqs ++ [Resolved value])).
Proof.
  intros Hnone. unfold collectCandles.
  rewrite first_rejection_app, Hnone. reflexivity.
Qed.

Lemma interval_loop_exit E opts fuel s :
  IntervalAlpaca.normalized_end opts < IntervalAlpaca.to s ->
  IntervalAlpaca.loop E opts fuel s = Returned s tt.
Proof.
  intros Hgt.
  destruct fuel; simpl;
    (destruct (Z.leb_spec (IntervalAlpaca.to s) (IntervalAlpaca.normalized_end opts));
     [lia | reflexivity]).
Qed.

(** The explicit-range loop, run from a state with cursor [from s] when no
    task fails: [m] is the number of day boundaries from the cursor up to
    the end of the range.  The loop returns after [m] turns, having started
    one task per day, and the cursor has moved [m] days. *)
Lemma interval_run E opts :
  reliable E -> supported (IntervalAlpaca.interval opts) ->
  forall m s extra,
    IntervalAlpaca.to s = IntervalAlpaca.from s ->
    first_rejection (IntervalAlpaca.reqs s) = None ->
    readable (IntervalAlpaca.world s) ->
    IntervalAlpaca.normalized_end opts - IntervalAlpaca.from s < Z.of_nat m * DAY ->
    (m <> 0%nat ->
     (Z.of_nat m - 1) * DAY <= IntervalAlpaca.normalized_end opts - IntervalAlpaca.from s) ->
    exists s',
      IntervalAlpaca.loop E opts (m + extra) s = Returned s' tt /\
      chunks (IntervalAlpaca.log s') =
        chunks (IntervalAlpaca.log s) ++ day_chunks (IntervalAlpaca.from s) m /\
      flushes (IntervalAlpaca.log s') =
        flushes (IntervalAlpaca.log s) ++
        batches m (length (IntervalAlpaca.reqs s))
          (IntervalAlpaca.normalized_end opts - IntervalAlpaca.from s) /\
      IntervalAlpaca.to s' = IntervalAlpaca.from s + Z.of_nat m * DAY.
Proof.
  intros Hrel Hsup m. induction m as [| m IH]; intros s extra Hto Hnone Hw Hlt Hge.
  - exists s. rewrite interval_loop_exit by lia.
    cbn [day_chunks batches]. rewrite !app_nil_r. repeat split; lia.
  - assert (Hin : IntervalAlpaca.from s <= IntervalAlpaca.normalized_end opts)
      by (specialize (Hge ltac:(done)); unfold DAY in *; lia).
    cbn [Nat.add IntervalAlpaca.loop]. rewrite Hto.
    destruct (Z.leb_spec (IntervalAlpaca.from s) (IntervalAlpaca.normalized_end opts));
      [| lia].
    destruct (requestDay_resolves E (IntervalAlpaca.world s) (IntervalAlpaca.from s)
                (IntervalAlpaca.from s + DAY) (IntervalAlpaca.ticker opts)
                (IntervalAlpaca.interval opts) Hrel Hsup Hw)
      as (w1 & evs & value & Hrd & Hw1).
    pose proof (requestDay_events E (IntervalAlpaca.world s) (IntervalAlpaca.from s)
                  (IntervalAlpaca.from s + DAY) (IntervalAlpaca.ticker opts)
                  (IntervalAlpaca.interval opts)) as Hevs.
    rewrite Hrd in Hevs; simpl in Hevs.
    apply fetch_events_silent in Hevs as (Hc & Hf & _).
    unfold IntervalAlpaca.iteration. change (86400 * 1000) with DAY. rewrite Hrd.
    rewrite (collect_resolved _ _ Hnone).
    pose proof (concat_days_events (IntervalAlpaca.reqs s ++ [Resolved value])) as Hmissed.
    destruct (concat_days (IntervalAlpaca.reqs s ++ [Resolved value])) as [missed data].
    simpl in Hmissed. apply missed_events_silent in Hmissed as (Hmc & Hmf & _).
    rewrite length_app, Nat.add_1_r. cbn [batches day_chunks].
    replace (IntervalAlpaca.from s + DAY >=? IntervalAlpaca.normalized_end opts)
      with (DAY >=? IntervalAlpaca.normalized_end opts - IntervalAlpaca.from s)
      by (destruct (Z.geb_spec DAY
                      (IntervalAlpaca.normalized_end opts - IntervalAlpaca.from s));
          destruct (Z.geb_spec (IntervalAlpaca.from s + DAY)
                      (IntervalAlpaca.normalized_end opts)); (reflexivity || lia)).
    destruct ((S (length (IntervalAlpaca.reqs s)) =? 50)%nat
              || (DAY >=? IntervalAlpaca.normalized_end opts - IntervalAlpaca.from s));
      cbn [snd];
      match goal with
      | |- ex (fun _ => IntervalAlpaca.loop _ _ _ ?s1 = _ /\ _) =>
          destruct (IH s1 extra) as (s' & Hloop & Hchunks & Hflushes & Hcur);
          [ reflexivity
          | cbn; try rewrite first_rejection_app, Hnone; reflexivity
          | exact Hw1
          | cbn; lia
          | cbn; lia
          | exists s'; split; [exact Hloop |] ]
      end;
      cbn in Hchunks, Hflushes, Hcur; rewrite Hchunks, Hflushes, Hcur;
      rewrite !chunks_app, !flushes_app;
      change (chunks (EvEnqueue ?a ?b :: ?r)) with ((a, b) :: chunks r);
      change (flushes (EvEnqueue ?a ?b :: ?r)) with (flushes r);
      try change (chunks (EvFlush ?n ?f :: ?r)) with (chunks r);
      try change (flushes (EvFlush ?n ?f :: ?r)) with (n :: flushes r);
      rewrite ?Hc, ?Hf, ?Hmc, ?Hmf, ?length_app, ?Nat.add_1_r, <- ?app_assoc;
      cbn [app];
      replace (IntervalAlpaca.normalized_end opts - (IntervalAlpaca.from s + DAY))
        with (IntervalAlpaca.normalized_end opts - IntervalAlpaca.from s - DAY) by lia;
      repeat split; lia.
Qed.

Lemma day_chunks_length b m : length (day_chunks b m) = m.
Proof. revert b. induction m as [| m IH]; intros b; simpl; auto. Qed.

(** The chunks are one day long and each starts where the previous ends. *)
Lemma day_chunks_lookup b m i :
  (i < m)%nat ->
  day_chunks b m !! i = Some (b + Z.of_nat i * DAY, b + Z.of_nat i * DAY + DAY).
Proof.
  revert b i. induction m as [| m IH]; intros b i Hi; [lia |].
  destruct i as [| i]; simpl.
  - do 2 f_equal; lia.
  - rewrite IH by lia. do 2 f_equal; lia.
Qed.

Lemma window_loop_exit E opts end' fuel s :
  end' < FromAlpaca.to s ->
  FromAlpaca.loop E opts end' fuel s = Returned s tt.
Proof.
  intros Hgt.
  destruct fuel; simpl;
    (destruct (Z.leb_spec (FromAlpaca.to s) end'); [lia | reflexivity]).
Qed.

(** The fixed-window loop when no task fails: as [interval_run], and the
    reported position moves by one at every turn. *)
Lemma window_run E opts end' :
  reliable E -> supported (FromAlpaca.interval opts) ->
  forall m s extra,
    FromAlpaca.to s = FromAlpaca.from s ->
    first_rejection (FromAlpaca.reqs s) = None ->
    readable (FromAlpaca.world s) ->
    end' - FromAlpaca.from s < Z.of_nat m * DAY ->
    (m <> 0%nat -> (Z.of_nat m - 1) * DAY <= end' - FromAlpaca.from s) ->
    exists s',
      FromAlpaca.loop E opts end' (m + extra) s = Returned s' tt /\
      chunks (FromAlpaca.log s') =
        chunks (FromAlpaca.log s) ++ day_chunks (FromAlpaca.from s) m /\
      flushes (FromAlpaca.log s') =
        flushes (FromAlpaca.log s) ++
        batches m (length (FromAlpaca.reqs s)) (end' - FromAlpaca.from s) /\
      updates (FromAlpaca.log s') =
        updates (FromAlpaca.log s) ++ positions (FromAlpaca.progressValue s) m /\
      FromAlpaca.to s' = FromAlpaca.from s + Z.of_nat m * DAY.
Proof.
  intros Hrel Hsup m. induction m as [| m IH]; intros s extra Hto Hnone Hw Hlt Hge.
  - exists s. rewrite window_loop_exit by lia.
    cbn [day_chunks batches positions]. rewrite !app_nil_r. repeat split; lia.
  - assert (Hin : FromAlpaca.from s <= end')
      by (specialize (Hge ltac:(done)); unfold DAY in *; lia).
    cbn [Nat.add FromAlpaca.loop]. rewrite Hto.
    destruct (Z.leb_spec (FromAlpaca.from s) end'); [| lia].
    destruct (requestDay_resolves E (FromAlpaca.world s) (FromAlpaca.from s)
                (FromAlpaca.from s + DAY) (FromAlpaca.ticker opts)
                (FromAlpaca.interval opts) Hrel Hsup Hw)
      as (w1 & evs & value & Hrd & Hw1).
    pose proof (requestDay_events E (FromAlpaca.world s) (FromAlpaca.from s)
                  (FromAlpaca.from s + DAY) (FromAlpaca.ticker opts)
                  (FromAlpaca.interval opts)) as Hevs.
    rewrite Hrd in Hevs; simpl in Hevs.
    apply fetch_events_silent in Hevs as (Hc & Hf & Hu).
    unfold FromAlpaca.iteration. change (86400 * 1000) with DAY. rewrite Hrd.
    rewrite (collect_resolved _ _ Hnone).
    pose proof (concat_days_events (FromAlpaca.reqs s ++ [Resolved value])) as Hmissed.
    destruct (concat_days (FromAlpaca.reqs s ++ [Resolved value])) as [missed data].
    simpl in Hmissed. apply missed_events_silent in Hmissed as (Hmc & Hmf & Hmu).
    rewrite length_app, Nat.add_1_r. cbn [batches day_chunks positions].
    replace (FromAlpaca.from s + DAY >=? end')
      with (DAY >=? end' - FromAlpaca.from s)
      by (destruct (Z.geb_spec DAY (end' - FromAlpaca.from s));
          destruct (Z.geb_spec (FromAlpaca.from s + DAY) end'); (reflexivity || lia)).
    destruct ((S (length (FromAlpaca.reqs s)) =? 50)%nat
              || (DAY >=? end' - FromAlpaca.from s));
      match goal with
      | |- ex (fun _ => FromAlpaca.loop _ _ _ _ ?s1 = _ /\ _) =>
          destruct (IH s1 extra) as (s' & Hloop & Hchunks & Hflushes & Hupdates & Hcur);
          [ reflexivity
          | cbn; try rewrite first_rejection_app, Hnone; reflexivity
          | exact Hw1
          | cbn; lia
          | cbn; lia
          | exists s'; split; [exact Hloop |] ]
      end;
      cbn in Hchunks, Hflushes, Hupdates, Hcur;
      rewrite Hchunks, Hflushes, Hupdates, Hcur;
      rewrite !chunks_app, !flushes_app, !updates_app;
      change (chunks (EvEnqueue ?a ?b :: ?r)) with ((a, b) :: chunks r);
      change (flushes (EvEnqueue ?a ?b :: ?r)) with (flushes r);
      change (updates (EvEnqueue ?a ?b :: ?r)) with (updates r);
      try change (chunks (EvFlush ?n ?f :: ?r)) with (chunks r);
      try change (flushes (EvFlush ?n ?f :: ?r)) with (n :: flushes r);
      try change (updates (EvFlush ?n ?f :: ?r)) with (updates r);
      rewrite ?chunks_app, ?flushes_app, ?updates_app;
      change (chunks [EvProgressUpdate ?p]) with (@nil (Z * Z));
      change (flushes [EvProgressUpdate ?p]) with (@nil nat);
      change (updates [EvProgressUpdate ?p]) with [p];
      rewrite ?Hc, ?Hf, ?Hu, ?Hmc, ?Hmf, ?Hmu, ?length_app, ?Nat.add_1_r,
        ?app_nil_r, <- ?app_assoc;
      cbn [app];
      replace (end' - (FromAlpaca.from s + DAY))
        with (end' - FromAlpaca.from s - DAY) by lia;
      repeat split; lia.
Qed.

(** With a provider that answers, a supported time frame and no damaged
    cache file, the explicit-range entry point returns: it takes one turn
    per day boundary from the normalised start up to the normalised end,
    and starts one task per turn. *)
Lemma interval_returns_when_reliable E w opts :
  reliable E -> supported (IntervalAlpaca.interval opts) -> readable w ->
  IntervalAlpaca.normalized_start E opts <= IntervalAlpaca.normalized_end opts ->
  let m :=
    S (Z.to_nat ((IntervalAlpaca.normalized_end opts
                  - IntervalAlpaca.normalized_start E opts) / DAY)) in
  exists s candles,
    IntervalAlpaca.getHistoryIntervalAlpaca E m w opts = Returned s candles /\
    chunks (IntervalAlpaca.log s)
      = day_chunks (IntervalAlpaca.normalized_start E opts) m.
Proof.
  intros Hrel Hsup Hw Hle m.
  set (span := IntervalAlpaca.normalized_end opts
               - IntervalAlpaca.normalized_start E opts) in *.
  assert (Hm : Z.of_nat m = span / DAY + 1).
  { subst m. rewrite Nat2Z.inj_succ, Z2Nat.id; [lia |].
    apply Z.div_pos; unfold DAY; lia. }
  pose proof (Z.mul_div_le span DAY ltac:(done)) as Hlo.
  pose proof (Z.mul_succ_div_gt span DAY ltac:(done)) as Hhi.
  destruct (interval_run E opts Hrel Hsup m (IntervalAlpaca.initial E w opts) 0)
    as (s & Hloop & Hchunks & _);
    try (reflexivity || exact Hw
         || (intros; cbn [IntervalAlpaca.initial IntervalAlpaca.from];
             fold span; rewrite Hm; lia)).
  rewrite Nat.add_0_r in Hloop.
  unfold IntervalAlpaca.getHistoryIntervalAlpaca. rewrite Hloop.
  eexists _, _. split; [reflexivity |]. exact Hchunks.
Qed.

(** C1 (as amended).  When the normalised span is exactly ten days and no
    task fails, the explicit-range entry point returns after eleven turns
    and has started exactly eleven one-day chunks: they are contiguous, the
    first starts at the normalised start and the last starts at the
    normalised end, so that together they cover the range from the
    normalised start to one day past the normalised end.  They are flushed
    as a batch of ten and a batch of one, and the loop stops once the
    cursor lies strictly beyond the end. *)
Theorem C1_ten_day_span_yields_eleven_chunks E w opts extra :
  reliable E -> supported (IntervalAlpaca.interval opts) -> readable w ->
  IntervalAlpaca.normalized_end opts - IntervalAlpaca.normalized_start E opts
    = 10 * DAY ->
  exists s candles,
    IntervalAlpaca.getHistoryIntervalAlpaca E (11 + extra) w opts
      = Returned s candles /\
    chunks (IntervalAlpaca.log s)
      = day_chunks (IntervalAlpaca.normalized_start E opts) 11 /\
    length (chunks (IntervalAlpaca.log s)) = 11%nat /\
    chunks (IntervalAlpaca.log s) !! 10%nat
      = Some (IntervalAlpaca.normalized_end opts,
              IntervalAlpaca.normalized_end opts + DAY) /\
    flushes (IntervalAlpaca.log s) = [10%nat; 1%nat] /\
    IntervalAlpaca.to s = IntervalAlpaca.normalized_end opts + DAY.
Proof.
  intros Hrel Hsup Hw Hspan.
  destruct (interval_run E opts Hrel Hsup 11 (IntervalAlpaca.initial E w opts) extra)
    as (s & Hloop & Hchunks & Hflushes & Hcur);
    try (reflexivity || exact Hw
         || (intros; cbn [IntervalAlpaca.initial IntervalAlpaca.from];
             unfold DAY in *; lia)).
  cbn [IntervalAlpaca.initial IntervalAlpaca.from IntervalAlpaca.log
       IntervalAlpaca.reqs length] in Hchunks, Hflushes, Hcur.
  change (chunks []) with (@nil (Z * Z)) in Hchunks.
  change (flushes []) with (@nil nat) in Hflushes.
  cbn [app] in Hchunks, Hflushes.
  unfold IntervalAlpaca.getHistoryIntervalAlpaca. rewrite Hloop.
  eexists _, _. split; [reflexivity |].
  rewrite Hchunks, Hflushes, Hcur, Hspan.
  split; [reflexivity |]. split; [apply day_chunks_length |].
  split; [rewrite day_chunks_lookup by lia; do 2 f_equal; lia |].
  split; [reflexivity | lia].
Qed.

Lemma utc_reliable : reliable Fixture.utc.
Proof. intros k symbol a b timeframe. eexists. reflexivity. Qed.

Lemma day_supported : supported "day".
Proof. eexists. reflexivity. Qed.

Lemma fresh_readable : readable Fixture.fresh.
Proof. intros path why. cbn. by rewrite lookup_empty. Qed.

Lemma C1_witness :
  let opts := Fixture.range Fixture.monday (Fixture.monday + 10 * DAY) "day" in
  exists s candles,
    IntervalAlpaca.getHistoryIntervalAlpaca Fixture.utc (11 + 0) Fixture.fresh opts
      = Returned s candles /\
    chunks (IntervalAlpaca.log s)
      = day_chunks (IntervalAlpaca.normalized_start Fixture.utc opts) 11 /\
    length (chunks (IntervalAlpaca.log s)) = 11%nat /\
    chunks (IntervalAlpaca.log s) !! 10%nat
      = Some (IntervalAlpaca.normalized_end opts,
              IntervalAlpaca.normalized_end opts + DAY) /\
    flushes (IntervalAlpaca.log s) = [10%nat; 1%nat] /\
    IntervalAlpaca.to s = IntervalAlpaca.normalized_end opts + DAY.
Proof.
  intros opts.
  apply (C1_ten_day_span_yields_eleven_chunks Fixture.utc Fixture.fresh opts 0
           utc_reliable day_supported fresh_readable).
  reflexivity.
Defined.

(** C1 (as stated) fails: on a span of exactly ten days, with every task
    succeeding, eleven chunks are produced, not ten; a chunk is still
    started when the cursor has reached the end. *)
Lemma C1_counterexample :
  let opts := Fixture.range Fixture.monday (Fixture.monday + 10 * DAY) "day" in
  let out :=
    IntervalAlpaca.getHistoryIntervalAlpaca Fixture.utc 20 Fixture.fresh opts in
  IntervalAlpaca.normalized_end opts - IntervalAlpaca.normalized_start Fixture.utc opts
    = 10 * DAY /\
  (exists s candles, out = Returned s candles) /\
  forallb (fun ev => negb (is_failed_flush ev)) (IntervalAlpaca.log (final out)) = true /\
  length (chunks (IntervalAlpaca.log (final out))) <> 10%nat /\
  (IntervalAlpaca.normalized_end opts, IntervalAlpaca.normalized_end opts + DAY)
    ∈ chunks (IntervalAlpaca.log (final out)).
Proof.
  vm_compute. split; [reflexivity |]. split; [eauto |]. split; [reflexivity |].
  split; [discriminate |]. set_solver.
Qed.

(** ** Fixed-window entry point *)

(** C2 (as amended).  A fixed-window request of 51 days with no trailing
    gap, none of whose tasks fails, returns after 51 turns having flushed
    exactly two batches, of 50 tasks and then of 1 task.  Progress is
    reported once per day chunk, not once per batch: the sink receives the
    positions 1, 2, ..., 51, one after each turn, and the final position
    51 before it is stopped. *)
Theorem C2_fifty_one_days_two_flushes E w opts extra :
  reliable E -> supported (FromAlpaca.interval opts) -> readable w ->
  FromAlpaca.days opts = 51 -> FromAlpaca.gapDays opts = 0 ->
  exists s candles,
    FromAlpaca.getHistoryFromAlpaca E (51 + extra) w opts = Returned s candles /\
    flushes (FromAlpaca.log s) = [50%nat; 1%nat] /\
    updates (FromAlpaca.log s) = positions 0 51 ++ [51] /\
    increments 0 (updates (FromAlpaca.log s)) = replicate 51 1 ++ [0].
Proof.
  intros Hrel Hsup Hw Hdays Hgap.
  assert (Hspan : FromAlpaca.window_end E w opts - FromAlpaca.window_start E w opts
                  = 51 * DAY - 900000).
  { unfold FromAlpaca.window_end, FromAlpaca.window_start.
    rewrite Hdays, Hgap. cbn [Z.eqb]. unfold DAY. lia. }
  destruct (window_run E opts (FromAlpaca.window_end E w opts) Hrel Hsup 51
              (FromAlpaca.initial E w opts) extra)
    as (s & Hloop & _ & Hflushes & Hupdates & _);
    try (reflexivity || exact Hw
         || (intros; cbn [FromAlpaca.initial FromAlpaca.from];
             unfold DAY in *; lia)).
  cbn [FromAlpaca.initial FromAlpaca.from FromAlpaca.log FromAlpaca.reqs
       FromAlpaca.progressValue length] in Hflushes, Hupdates.
  rewrite Hspan in Hflushes.
  unfold FromAlpaca.getHistoryFromAlpaca. rewrite Hloop.
  eexists _, _. split; [reflexivity |].
  cbn [FromAlpaca.log]. rewrite flushes_app, updates_app, Hflushes, Hupdates, Hdays.
  split; [| split]; reflexivity.
Qed.

Lemma C2_witness :
  exists s candles,
    FromAlpaca.getHistoryFromAlpaca Fixture.utc (51 + 0) Fixture.fresh
      (Fixture.window 51 0 "day") = Returned s candles /\
    flushes (FromAlpaca.log s) = [50%nat; 1%nat] /\
    updates (FromAlpaca.log s) = positions 0 51 ++ [51] /\
    increments 0 (updates (FromAlpaca.log s)) = replicate 51 1 ++ [0].
Proof.
  apply (C2_fifty_one_days_two_flushes Fixture.utc Fixture.fresh
           (Fixture.window 51 0 "day") 0 utc_reliable day_supported fresh_readable);
    reflexivity.
Defined.

(** C2 (as stated) fails.  Without a trailing gap, a 51-day window makes
    two flushes but the sink is moved 51 times by one day, never by 50;
    with a trailing gap of one day the same window makes three flushes. *)
Lemma C2_counterexample :
  let run gapDays :=
    FromAlpaca.log
      (final (FromAlpaca.getHistoryFromAlpaca Fixture.utc 60 Fixture.fresh
                (Fixture.window 51 gapDays "day"))) in
  forallb (fun ev => negb (is_failed_flush ev)) (run 0) = true /\
  flushes (run 0) = [50%nat; 1%nat] /\
  increments 0 (updates (run 0)) <> [50; 1] /\
  increments 0 (updates (run 0)) = replicate 51 1 ++ [0] /\
  forallb (fun ev => negb (is_failed_flush ev)) (run 1) = true /\
  flushes (run 1) = [50%nat; 1%nat; 1%nat].
Proof. vm_compute. repeat split; discriminate. Qed.

Lemma fetch_events_quiet evs :
  Forall (fun ev => is_fetch_event ev = true) evs -> Forall quiet evs.
Proof.
  intros Hevs. eapply Forall_impl; [exact Hevs |]. intros ev Hev. by destruct ev.
Qed.

Lemma missed_events_quiet evs :
  Forall (fun ev => ev = EvLog LogMissedData) evs -> Forall quiet evs.
Proof.
  intros Hevs. eapply Forall_impl; [exact Hevs |]. by intros ev ->.
Qed.

Lemma window_iteration_quiet E opts end' s :
  Forall quiet (FromAlpaca.log s) ->
  match FromAlpaca.iteration E opts end' s with
  | (Enqueued, s') | (Committed, s') => Forall quiet (FromAlpaca.log s')
  | (Rethrown e, s') => exists n, ends_rethrown s' n e
  | (Failed _, _) => False
  end.
Proof.
  intros Hlog. unfold FromAlpaca.iteration.
  pose proof (requestDay_events E (FromAlpaca.world s) (FromAlpaca.from s)
                (FromAlpaca.from s + 86400 * 1000) (FromAlpaca.ticker opts)
                (FromAlpaca.interval opts)) as Hevs.
  destruct (requestDay _ _ _ _ _ _) as [[w1 evs] promise]. simpl in Hevs.
  apply fetch_events_quiet in Hevs.
  assert (Hlog' : Forall quiet
                    (FromAlpaca.log s ++
                     EvEnqueue (FromAlpaca.from s) (FromAlpaca.from s + 86400 * 1000) :: evs)).
  { apply Forall_app. split; [done |]. by constructor. }
  destruct (_ || _).
  - unfold collectCandles.
    pose proof (concat_days_events (FromAlpaca.reqs s ++ [promise])) as Hmissed.
    destruct (first_rejection _) as [e |].
    + rewrite orb_negb_r. eexists. exists (FromAlpaca.log s ++
        EvEnqueue (FromAlpaca.from s) (FromAlpaca.from s + 86400 * 1000) :: evs).
      split; [done |]. reflexivity.
    + destruct (concat_days _) as [missed data]. simpl in Hmissed. cbn [FromAlpaca.log].
      apply Forall_app. split; [done |]. constructor; [done |].
      apply Forall_app. split; [by apply missed_events_quiet |]. by constructor.
  - cbn [FromAlpaca.log]. apply Forall_app. split; [done |]. by constructor.
Qed.

Lemma window_loop_quiet E opts end' fuel :
  forall s,
    Forall quiet (FromAlpaca.log s) ->
    match FromAlpaca.loop E opts end' fuel s with
    | Returned s' _ | Diverging s' => Forall quiet (FromAlpaca.log s')
    | Threw s' e => exists n, ends_rethrown s' n e
    end.
Proof.
  induction fuel as [| fuel IH]; intros s Hlog; simpl.
  - by destruct (_ <=? _).
  - destruct (_ <=? _); [| done].
    pose proof (window_iteration_quiet E opts end' s Hlog) as Hstep.
    destruct (FromAlpaca.iteration E opts end' s) as [[| | e | e] s'];
      [by apply IH | by apply IH | done | done].
Qed.

Lemma window_initial_quiet E w opts : Forall quiet (FromAlpaca.log (FromAlpaca.initial E w opts)).
Proof. repeat constructor. Qed.


(** A provider error with a code, met in the second task of a window of two
    days, reaches the caller at once. *)
Example window_rethrows_coded_error :
  exists s,
    FromAlpaca.getHistoryFromAlpaca Fixture.flaky 10
      {| files := ∅; calls := 0; now := Fixture.monday + 2 * DAY + 3600000 |}
      (Fixture.window 2 0 "day")
    = Threw s (ProviderError (Some 429) "too many requests") /\
    flushes (FromAlpaca.log s) = [2%nat] /\
    FromAlpaca.tries s = 1%nat.
Proof. vm_compute. eexists. repeat split. Qed.

(** So does a provider error without a code. *)
Example window_rethrows_uncoded_error :
  exists s,
    FromAlpaca.getHistoryFromAlpaca Fixture.stubborn 10
      {| files := ∅; calls := 0; now := Fixture.monday + 2 * DAY + 3600000 |}
      (Fixture.window 2 0 "day")
    = Threw s (ProviderError None "service unavailable") /\
    delays (FromAlpaca.log s) = [].
Proof. vm_compute. eexists. repeat split. Qed.

(** ** Backoff *)

Lemma fetch_events_neutral evs :
  Forall (fun ev => is_fetch_event ev = true) evs -> Forall neutral evs.
Proof.
  intros Hevs. eapply Forall_impl; [exact Hevs |]. intros ev Hev. by destruct ev.
Qed.

Lemma missed_events_neutral evs :
  Forall (fun ev => ev = EvLog LogMissedData) evs -> Forall neutral evs.
Proof.
  intros Hevs. eapply Forall_impl; [exact Hevs |]. by intros ev ->.
Qed.

Lemma backoff_neutral n evs : Forall neutral evs -> backoff n evs = true.
Proof.
  induction 1 as [| ev evs Hev _ IH]; [done |]. by destruct ev.
Qed.

Lemma failures_neutral n evs : Forall neutral evs -> failures n evs = n.
Proof.
  induction 1 as [| ev evs Hev _ IH]; [done |]. by destruct ev.
Qed.

Lemma failures_app n evs1 evs2 :
  failures n (evs1 ++ evs2) = failures (failures n evs1) evs2.
Proof.
  revert n. induction evs1 as [| ev evs1 IH]; intros n; [done |].
  destruct ev as [| | | | k [e |] | | | | |]; simpl; auto.
Qed.

(** A log that obeys the backoff rule can be checked piece by piece. *)
Lemma backoff_app evs1 :
  forall n evs2,
    backoff n evs1 = true ->
    backoff n (evs1 ++ evs2) = backoff (failures n evs1) evs2.
Proof.
  remember (length evs1) as len eqn:Hlen.
  revert evs1 Hlen. induction len as [len IH] using lt_wf_ind.
  intros evs1 -> n evs2 Hok.
  destruct evs1 as [| ev rest]; [done |].
  destruct ev as [| | | | k [e |] | | | | |];
    try (simpl in *; apply (IH (length rest)); auto with lia; fail).
  - destruct rest as [| [] rest']; try discriminate Hok.
    simpl in *. apply andb_true_iff in Hok as [-> Hok]. simpl.
    apply (IH (length rest')); auto with lia.
  - discriminate Hok.
Qed.

(** In a log that obeys the backoff rule, the sleep that follows a failed
    flush is the one the timer makes of [2^N * 10000] ms, [N] counting that
    flush and the failed ones before it since the last flush that was
    kept. *)
Lemma backoff_delay pre :
  forall n k e ms post,
    backoff n (pre ++ EvFlush k (Some e) :: EvSleep ms :: post) = true ->
    ms = timer_delay (backoff_ms (S (failures n pre))).
Proof.
  remember (length pre) as len eqn:Hlen.
  revert pre Hlen. induction len as [len IH] using lt_wf_ind.
  intros pre -> n k e ms post Hok.
  destruct pre as [| ev rest].
  - simpl in Hok. apply andb_true_iff in Hok as [Hms _].
    apply Z.eqb_eq in Hms. exact Hms.
  - destruct ev as [| | | | k' [e' |] | | | | |];
      try discriminate Hok;
      try (simpl in *; eapply (IH (length rest)); eauto with lia; fail).
    destruct rest as [| [] rest']; try discriminate Hok.
    simpl in Hok. apply andb_true_iff in Hok as [_ Hok].
    simpl. eapply (IH (length rest')); eauto. simpl; lia.
Qed.

Lemma interval_iteration_backoff E opts s :
  backoff_invariant s -> backoff_invariant (snd (IntervalAlpaca.iteration E opts s)).
Proof.
  intros [Hok Hcount]. unfold IntervalAlpaca.iteration.
  pose proof (requestDay_events E (IntervalAlpaca.world s) (IntervalAlpaca.from s)
                (IntervalAlpaca.from s + 86400 * 1000) (IntervalAlpaca.ticker opts)
                (IntervalAlpaca.interval opts)) as Hevs.
  destruct (requestDay _ _ _ _ _ _) as [[w1 evs] promise]. simpl in Hevs.
  apply fetch_events_neutral in Hevs.
  assert (Hnew : Forall neutral
                   (EvEnqueue (IntervalAlpaca.from s) (IntervalAlpaca.from s + 86400 * 1000)
                    :: evs)) by (by constructor).
  assert (Hok' : backoff 0 (IntervalAlpaca.log s ++
                   EvEnqueue (IntervalAlpaca.from s) (IntervalAlpaca.from s + 86400 * 1000)
                   :: evs) = true).
  { rewrite backoff_app by done. by apply backoff_neutral. }
  assert (Hcount' : failures 0 (IntervalAlpaca.log s ++
                      EvEnqueue (IntervalAlpaca.from s) (IntervalAlpaca.from s + 86400 * 1000)
                      :: evs) = IntervalAlpaca.tries s).
  { rewrite failures_app, Hcount. by apply failures_neutral. }
  destruct (_ || _); [| by split].
  unfold collectCandles.
  pose proof (concat_days_events (IntervalAlpaca.reqs s ++ [promise])) as Hmissed.
  destruct (first_rejection _) as [e |].
  - split; cbn [snd IntervalAlpaca.log IntervalAlpaca.tries].
    + rewrite backoff_app, Hcount' by done. simpl. by rewrite Z.eqb_refl.
    + rewrite failures_app, Hcount'. reflexivity.
  - destruct (concat_days _) as [missed data]. simpl in Hmissed.
    apply missed_events_neutral in Hmissed.
    split; cbn [snd IntervalAlpaca.log IntervalAlpaca.tries].
    + rewrite backoff_app by done. simpl. by apply backoff_neutral.
    + rewrite failures_app. simpl. by apply failures_neutral.
Qed.

Lemma interval_loop_backoff E opts fuel :
  forall s,
    backoff_invariant s -> backoff_invariant (final (IntervalAlpaca.loop E opts fuel s)).
Proof.
  induction fuel as [| fuel IH]; intros s Hinv; simpl.
  - by destruct (_ <=? _).
  - destruct (_ <=? _); [| done].
    apply IH. by apply interval_iteration_backoff.
Qed.

Lemma interval_final E fuel w opts :
  final (IntervalAlpaca.getHistoryIntervalAlpaca E fuel w opts)
  = final (IntervalAlpaca.loop E opts fuel (IntervalAlpaca.initial E w opts)).
Proof.
  unfold IntervalAlpaca.getHistoryIntervalAlpaca.
  by destruct (IntervalAlpaca.loop _ _ _ _).
Qed.


(** From the 18th failure in a row on, what the loop asks for is more than
    a timer can wait, and the timer waits one millisecond. *)
Lemma timer_delay_overflow n : (18 <= n)%nat -> timer_delay (backoff_ms n) = 1.
Proof.
  intros Hn. unfold timer_delay, backoff_ms.
  destruct (n <=? 1010)%nat; [| reflexivity].
  assert (2 ^ 18 <= 2 ^ Z.of_nat n) by (apply Z.pow_le_mono_r; lia).
  destruct (Z.leb_spec (2 ^ Z.of_nat n * 10000) 2147483647); [lia |].
  by rewrite andb_false_r.
Qed.

(** Whatever the explicit-range entry point has done when it stops (or
    when the fuel runs out), its log obeys the backoff rule and [tries] is
    the number of flushes that failed since the last flush that was
    kept. *)
Lemma interval_backoff_rule E fuel w opts :
  let s := final (IntervalAlpaca.getHistoryIntervalAlpaca E fuel w opts) in
  backoff 0 (IntervalAlpaca.log s) = true /\
  IntervalAlpaca.tries s = failures 0 (IntervalAlpaca.log s) /\
  (forall pre k e ms post,
     IntervalAlpaca.log s = pre ++ EvFlush k (Some e) :: EvSleep ms :: post ->
     ms = timer_delay (backoff_ms (S (failures 0 pre)))).
Proof.
  intros s. subst s. rewrite interval_final.
  destruct (interval_loop_backoff E opts fuel (IntervalAlpaca.initial E w opts))
    as [Hok Hcount]; [by split |].
  split; [exact Hok |]. split; [by rewrite Hcount |].
  intros pre k e ms post Hlog. rewrite Hlog in Hok.
  by apply backoff_delay in Hok.
Qed.

(** C5 (the defect).  A request for one day, in UTC, with a provider that
    never answers: every flush fails and is tried again.  The delays asked
    of the timer double from 20 000 ms on, but the 18th, 2 621 440 000 ms,
    is more than the 2 147 483 647 ms a timer can wait: the timer waits one
    millisecond instead, and so after every later failure. *)
Theorem C5_eighteenth_retry_waits_one_millisecond :
  let out :=
    IntervalAlpaca.getHistoryIntervalAlpaca Fixture.down 18 Fixture.fresh
      (Fixture.range Fixture.monday (Fixture.monday + DAY) "day") in
  IntervalAlpaca.tries (final out) = 18%nat /\
  forallb is_failed_flush
    (List.filter (fun ev => match ev with EvFlush _ _ => true | _ => false end)
       (IntervalAlpaca.log (final out))) = true /\
  delays (IntervalAlpaca.log (final out))
  = ((fun n => 2 ^ Z.of_nat n * 10000) <$> seq 1 17) ++ [1] /\
  2 ^ 18 * 10000 = 2621440000 /\
  (forall n, (18 <= n)%nat -> timer_delay (backoff_ms n) = 1).
Proof.
  split; [vm_compute; reflexivity |]. split; [vm_compute; reflexivity |].
  split; [vm_compute; reflexivity |]. split; [reflexivity |].
  apply timer_delay_overflow.
Qed.

(** Three failed flushes in a row, then a flush that is kept. *)
Example three_failures_in_a_row :
  let out :=
    IntervalAlpaca.getHistoryIntervalAlpaca Fixture.stubborn 10 Fixture.fresh
      (Fixture.range Fixture.monday (Fixture.monday + DAY) "day") in
  delays (IntervalAlpaca.log (final out)) = [20000; 40000; 80000] /\
  flushes (IntervalAlpaca.log (final out)) = [1; 1; 1; 1; 1]%nat /\
  IntervalAlpaca.tries (final out) = 0%nat /\
  exists s candles, out = Returned s candles.
Proof. vm_compute. repeat split. by eexists _, _. Qed.

(** ** Checkpoint and rewind *)

Lemma interval_iteration_checkpoint E opts b s :
  b <> 0 -> checkpoint_is b s ->
  match IntervalAlpaca.iteration E opts s with
  | (Enqueued, s') =>
      checkpoint_is b s' /\ IntervalAlpaca.result s' = IntervalAlpaca.result s
  | (Failed _, s') =>
      IntervalAlpaca.from s' = b /\
      IntervalAlpaca.result s' = IntervalAlpaca.result s /\
      IntervalAlpaca.reqs s' = []
  | _ => True
  end.
Proof.
  intros Hb Hcp. unfold IntervalAlpaca.iteration.
  destruct (requestDay _ _ _ _ _ _) as [[w1 evs] promise].
  assert (Hcs : (if unset (IntervalAlpaca.chunkStart s)
                 then IntervalAlpaca.from s
                 else default (IntervalAlpaca.from s) (IntervalAlpaca.chunkStart s))
                = b).
  { destruct Hcp as [[-> Hfrom] | ->]; [exact Hfrom |].
    unfold unset, truthy. destruct (Z.eqb_spec b 0); [done | reflexivity]. }
  rewrite Hcs.
  destruct (_ || _).
  - destruct (collectCandles _) as [e | [missed data]]; [| exact I].
    repeat split.
  - split; [by right | reflexivity].
Qed.

Lemma turns_succ E opts n s :
  turns E opts (S n) s = snd (IntervalAlpaca.iteration E opts (turns E opts n s)).
Proof.
  revert s. induction n as [| n IH]; intros s; [reflexivity |].
  change (turns E opts (S (S n)) s)
    with (turns E opts (S n) (snd (IntervalAlpaca.iteration E opts s))).
  rewrite IH. reflexivity.
Qed.

(** When a batch begins with the cursor at a non-zero instant [b], and its
    flush fails after [k] further tasks were enqueued, the cursor is back
    at [b] and the committed list is what it was when the batch began. *)
Lemma failed_batch_rewinds E opts s0 k e :
  IntervalAlpaca.from s0 <> 0 ->
  checkpoint_is (IntervalAlpaca.from s0) s0 ->
  (forall j, (j < k)%nat ->
             fst (IntervalAlpaca.iteration E opts (turns E opts j s0)) = Enqueued) ->
  fst (IntervalAlpaca.iteration E opts (turns E opts k s0)) = Failed e ->
  IntervalAlpaca.from (turns E opts (S k) s0) = IntervalAlpaca.from s0 /\
  IntervalAlpaca.result (turns E opts (S k) s0) = IntervalAlpaca.result s0 /\
  IntervalAlpaca.reqs (turns E opts (S k) s0) = [].
Proof.
  intros Hb Hcp Henq Hfail.
  assert (Hinv : forall j, (j <= k)%nat ->
                   checkpoint_is (IntervalAlpaca.from s0) (turns E opts j s0) /\
                   IntervalAlpaca.result (turns E opts j s0) = IntervalAlpaca.result s0).
  { induction j as [| j IH]; intros Hj; [by split |].
    destruct IH as [Hcpj Hresj]; [lia |].
    pose proof (interval_iteration_checkpoint E opts _ _ Hb Hcpj) as Hstep.
    specialize (Henq j ltac:(lia)). rewrite turns_succ.
    destruct (IntervalAlpaca.iteration E opts (turns E opts j s0)) as [st s'].
    simpl in Henq. subst st. destruct Hstep as [Hcp' Hres']. simpl.
    split; [exact Hcp' | congruence]. }
  destruct (Hinv k ltac:(lia)) as [Hcpk Hresk].
  pose proof (interval_iteration_checkpoint E opts _ _ Hb Hcpk) as Hstep.
  rewrite turns_succ.
  destruct (IntervalAlpaca.iteration E opts (turns E opts k s0)) as [st s'].
  simpl in Hfail. subst st. destruct Hstep as (Hfrom & Hres & Hreqs). simpl.
  repeat split; congruence.
Qed.

(** Every state in which a batch begins designates its own cursor as the
    checkpoint. *)
Lemma batch_start_checkpoint E w opts n :
  let s := turns E opts n (IntervalAlpaca.initial E w opts) in
  IntervalAlpaca.reqs s = [] -> checkpoint_is (IntervalAlpaca.from s) s.
Proof.
  destruct n as [| n]; intros s Hreqs; subst s; [by left |].
  rewrite turns_succ in *.
  remember (turns E opts n (IntervalAlpaca.initial E w opts)) as sn.
  clear Heqsn. revert Hreqs. unfold IntervalAlpaca.iteration.
  destruct (requestDay _ _ _ _ _ _) as [[w1 evs] promise].
  destruct (_ || _).
  - destruct (collectCandles _) as [e | [missed data]]; intros _; by right.
  - simpl. intros Hreqs. by destruct (IntervalAlpaca.reqs sn).
Qed.

(** C4 (the defect).  The request starts at the epoch, covers two days, and
    the provider fails once, on the second day.  The batch began with the
    cursor at 0; the zero checkpoint reads as unset and is overwritten by
    the second turn, so that after the failed flush the cursor is one day
    later than where the batch began.  The first day is never fetched
    again: its candle, served by the provider and lying within the
    requested bounds, is missing from the list returned. *)
Theorem C4_epoch_batch_is_not_rewound :
  let opts := Fixture.range 0 (2 * DAY) "day" in
  let s0 := IntervalAlpaca.initial Fixture.flaky Fixture.fresh opts in
  IntervalAlpaca.reqs s0 = [] /\
  IntervalAlpaca.from s0 = 0 /\
  fst (IntervalAlpaca.iteration Fixture.flaky opts s0) = Enqueued /\
  fst (IntervalAlpaca.iteration Fixture.flaky opts (turns Fixture.flaky opts 1 s0))
    = Failed (ProviderError (Some 429) "too many requests") /\
  IntervalAlpaca.from (turns Fixture.flaky opts 2 s0) = DAY /\
  chunks (IntervalAlpaca.log
            (final (IntervalAlpaca.getHistoryIntervalAlpaca Fixture.flaky 10
                      Fixture.fresh opts)))
    = [(0, DAY); (DAY, 2 * DAY); (DAY, 2 * DAY); (2 * DAY, 3 * DAY)] /\
  exists s,
    IntervalAlpaca.getHistoryIntervalAlpaca Fixture.flaky 10 Fixture.fresh opts
    = Returned s [].
Proof. vm_compute. repeat split. eexists. reflexivity. Qed.

(** The same scenario one Monday: the cursor returns to the start of the
    batch and both candles are returned. *)
Example monday_batch_is_rewound :
  let opts := Fixture.range Fixture.monday (Fixture.monday + 2 * DAY) "day" in
  let s0 := IntervalAlpaca.initial Fixture.flaky Fixture.fresh opts in
  IntervalAlpaca.from (turns Fixture.flaky opts 2 s0) = Fixture.monday /\
  exists s candles,
    IntervalAlpaca.getHistoryIntervalAlpaca Fixture.flaky 10 Fixture.fresh opts
    = Returned s candles /\
    time <$> candles = [Fixture.monday + 52200000; Fixture.monday + DAY + 52200000].
Proof. vm_compute. split; [reflexivity |]. eexists _, _. split; reflexivity. Qed.

(** ** Unsupported time frames *)

(** On a day that is no weekend day and has no cache file, an unsupported
    time frame rejects the task before the provider is called. *)
Lemma requestDay_unsupported E w from to ticker interval e :
  convertTimeFrame interval = inl e ->
  isWeekend E from = false ->
  readFile w (getPath ticker interval from to) = None ->
  requestDay E w from to ticker interval
  = (w, [EvCacheRead (getPath ticker interval from to)], Rejected e).
Proof.
  intros Htf Hwe Hmiss. unfold requestDay. by rewrite Hwe, Hmiss, Htf.
Qed.

(** Splits a property of every event of a log along the pieces of the log. *)
Ltac forall_log :=
  repeat first
    [ assumption
    | apply Forall_nil_2
    | apply Forall_app_2
    | apply Forall_cons_2; [reflexivity |] ].

(** With an unsupported time frame no task ever calls the provider. *)
Lemma requestDay_offline E w from to ticker interval e :
  convertTimeFrame interval = inl e ->
  Forall (fun ev => is_upstream ev = false)
         (requestDay E w from to ticker interval).1.2.
Proof.
  intros Htf. unfold requestDay.
  destruct (isWeekend E from); [constructor |].
  destruct (readFile w _) as [t |].
  - destruct (JSON_parse t); repeat constructor.
  - rewrite Htf. repeat constructor.
Qed.

Lemma missed_events_offline evs :
  Forall (fun ev => ev = EvLog LogMissedData) evs ->
  Forall (fun ev => is_upstream ev = false) evs.
Proof.
  intros Hevs. eapply Forall_impl; [exact Hevs |]. by intros ev ->.
Qed.

Lemma interval_loop_offline E opts e fuel :
  convertTimeFrame (IntervalAlpaca.interval opts) = inl e ->
  forall s,
    Forall (fun ev => is_upstream ev = false) (IntervalAlpaca.log s) ->
    Forall (fun ev => is_upstream ev = false)
           (IntervalAlpaca.log (final (IntervalAlpaca.loop E opts fuel s))).
Proof.
  intros Htf. induction fuel as [| fuel IH]; intros s Hlog; simpl.
  - by destruct (_ <=? _).
  - destruct (_ <=? _); [| done]. apply IH.
    unfold IntervalAlpaca.iteration.
    pose proof (requestDay_offline E (IntervalAlpaca.world s) (IntervalAlpaca.from s)
                  (IntervalAlpaca.from s + 86400 * 1000) (IntervalAlpaca.ticker opts)
                  (IntervalAlpaca.interval opts) e Htf) as Hevs.
    destruct (requestDay _ _ _ _ _ _) as [[w1 evs] promise]. simpl in Hevs.
    pose proof (concat_days_events (IntervalAlpaca.reqs s ++ [promise])) as Hmissed.
    unfold collectCandles.
    destruct (_ || _); [destruct (first_rejection _) |];
      [| destruct (concat_days _) as [missed data]; simpl in Hmissed;
         apply missed_events_offline in Hmissed |];
      cbn [snd IntervalAlpaca.log]; forall_log.
Qed.

Lemma window_loop_offline E opts end' e fuel :
  convertTimeFrame (FromAlpaca.interval opts) = inl e ->
  forall s,
    Forall (fun ev => is_upstream ev = false) (FromAlpaca.log s) ->
    Forall (fun ev => is_upstream ev = false)
           (FromAlpaca.log (final (FromAlpaca.loop E opts end' fuel s))).
Proof.
  intros Htf. induction fuel as [| fuel IH]; intros s Hlog; simpl.
  - by destruct (_ <=? _).
  - destruct (_ <=? _); [| done].
    assert (Hstep : Forall (fun ev => is_upstream ev = false)
                      (FromAlpaca.log (snd (FromAlpaca.iteration E opts end' s)))).
    { unfold FromAlpaca.iteration.
      pose proof (requestDay_offline E (FromAlpaca.world s) (FromAlpaca.from s)
                    (FromAlpaca.from s + 86400 * 1000) (FromAlpaca.ticker opts)
                    (FromAlpaca.interval opts) e Htf) as Hevs.
      destruct (requestDay _ _ _ _ _ _) as [[w1 evs] promise]. simpl in Hevs.
      pose proof (concat_days_events (FromAlpaca.reqs s ++ [promise])) as Hmissed.
      unfold collectCandles.
      destruct (_ || _); [destruct (first_rejection _) as [e' |] |];
        [rewrite orb_negb_r
        | destruct (concat_days _) as [missed data]; simpl in Hmissed;
          apply missed_events_offline in Hmissed |];
        cbn [snd FromAlpaca.log]; forall_log. }
    destruct (FromAlpaca.iteration E opts end' s) as [[| | e' | e'] s'];
      simpl in Hstep; try (by apply IH). exact Hstep.
Qed.

(** Once a task of the batch in flight is rejected with [e], or the task of
    the day under the cursor is about to be, the fixed-window loop throws
    [e] within the 50 turns that fill the batch. *)
Lemma window_rejected_batch_throws E opts end' e d :
  forall s extra,
    first_rejection
      (FromAlpaca.reqs s ++
       [(requestDay E (FromAlpaca.world s) (FromAlpaca.from s) (FromAlpaca.from s + DAY)
           (FromAlpaca.ticker opts) (FromAlpaca.interval opts)).2]) = Some e ->
    (length (FromAlpaca.reqs s) + d = 49)%nat ->
    FromAlpaca.to s <= end' ->
    exists s', FromAlpaca.loop E opts end' (S d + extra) s = Threw s' e.
Proof.
  induction d as [| d IH]; intros s extra Hrej Hlen Hto;
    cbn [Nat.add FromAlpaca.loop];
    (destruct (Z.leb_spec (FromAlpaca.to s) end'); [| lia]);
    unfold FromAlpaca.iteration; change (86400 * 1000) with DAY;
    destruct (requestDay E (FromAlpaca.world s) (FromAlpaca.from s) _ _ _)
      as [[w1 evs] promise] eqn:Hrd;
    cbn [snd] in Hrej; unfold collectCandles; rewrite Hrej, orb_negb_r.
  - rewrite length_app, Nat.add_1_r.
    replace (S (length (FromAlpaca.reqs s))) with 50%nat by lia.
    cbn [Nat.eqb orb]. by eexists.
  - destruct (_ || _) eqn:Hflush; [by eexists |].
    apply orb_false_iff in Hflush as [_ Hend].
    apply IH; cbn [FromAlpaca.reqs FromAlpaca.world FromAlpaca.from FromAlpaca.to].
    + rewrite first_rejection_app, Hrej. reflexivity.
    + rewrite length_app, Nat.add_1_r. lia.
    + destruct (Z.geb_spec (FromAlpaca.from s + DAY) end'); [discriminate | lia].
Qed.

(** The [catch] block of the explicit-range entry point has no [throw]:
    nothing thrown by a task reaches the caller. *)
Lemma interval_never_throws E fuel w opts s e :
  IntervalAlpaca.getHistoryIntervalAlpaca E fuel w opts <> Threw s e.
Proof.
  unfold IntervalAlpaca.getHistoryIntervalAlpaca.
  assert (Hloop : forall n st, IntervalAlpaca.loop E opts n st <> Threw s e).
  { induction n as [| n IH]; intros st; simpl; destruct (_ <=? _); try done; apply IH. }
  specialize (Hloop fuel (IntervalAlpaca.initial E w opts)). revert Hloop.
  destruct (IntervalAlpaca.loop _ _ _ _); intros Hloop;
    [discriminate | intros [= <- <-]; by apply Hloop | discriminate].
Qed.

Lemma window_final_log E fuel w opts :
  exists tail,
    FromAlpaca.log (final (FromAlpaca.getHistoryFromAlpaca E fuel w opts))
    = FromAlpaca.log
        (final (FromAlpaca.loop E opts (FromAlpaca.window_end E w opts) fuel
                  (FromAlpaca.initial E w opts))) ++ tail /\
    Forall (fun ev => is_fetch_event ev = false /\ is_sleep ev = false) tail.
Proof.
  unfold FromAlpaca.getHistoryFromAlpaca.
  destruct (FromAlpaca.loop _ _ _ _ _) as [s [] | s e | s]; cbn [final FromAlpaca.log].
  - eexists. split; [reflexivity |]. by repeat constructor.
  - exists []. by rewrite app_nil_r.
  - exists []. by rewrite app_nil_r.
Qed.

(** With a time frame the adapter does not translate: neither entry point
    ever calls the provider; the fixed-window entry point never sleeps, and
    when its first day chunk is no weekend day and has no cache file it
    throws the unsupported-time-frame error to the caller within the first
    batch. *)
Lemma unsupported_timeframe_stays_offline interval e :
  convertTimeFrame interval = inl e ->
  (forall E fuel w opts,
     IntervalAlpaca.interval opts = interval ->
     let out := IntervalAlpaca.getHistoryIntervalAlpaca E fuel w opts in
     Forall (fun ev => is_upstream ev = false) (IntervalAlpaca.log (final out))) /\
  (forall E fuel w opts,
     FromAlpaca.interval opts = interval ->
     let out := FromAlpaca.getHistoryFromAlpaca E fuel w opts in
     Forall (fun ev => is_upstream ev = false) (FromAlpaca.log (final out)) /\
     Forall (fun ev => is_sleep ev = false) (FromAlpaca.log (final out))) /\
  (forall E w opts extra,
     FromAlpaca.interval opts = interval ->
     isWeekend E (FromAlpaca.window_start E w opts) = false ->
     readFile w (getPath (FromAlpaca.ticker opts) interval
                   (FromAlpaca.window_start E w opts)
                   (FromAlpaca.window_start E w opts + DAY)) = None ->
     FromAlpaca.window_start E w opts <= FromAlpaca.window_end E w opts ->
     exists s, FromAlpaca.getHistoryFromAlpaca E (50 + extra) w opts = Threw s e).
Proof.
  intros Htf. split; [| split].
  - intros E fuel w opts <- out. subst out.
    rewrite interval_final. by apply (interval_loop_offline E opts e).
  - intros E fuel w opts <- out. subst out.
    destruct (window_final_log E fuel w opts) as (tail & -> & Htail).
    pose proof (window_loop_offline E opts (FromAlpaca.window_end E w opts) e fuel Htf
                  (FromAlpaca.initial E w opts) ltac:(by repeat constructor)) as Hoff.
    pose proof (window_loop_quiet E opts (FromAlpaca.window_end E w opts) fuel _
                  (window_initial_quiet E w opts)) as Hquiet.
    split.
    + apply Forall_app_2; [exact Hoff |].
      eapply Forall_impl; [exact Htail |]. intros ev [Hev _]. by destruct ev.
    + apply Forall_app_2; [| eapply Forall_impl; [exact Htail |]; by intros ev [_ Hev]].
      destruct (FromAlpaca.loop _ _ _ _ _) as [s [] | s e' | s]; cbn [final].
      * eapply Forall_impl; [exact Hquiet |]. by intros ev [Hev _].
      * destruct Hquiet as (n & pre & Hpre & ->).
        apply Forall_app_2; [| by repeat constructor].
        eapply Forall_impl; [exact Hpre |]. by intros ev [Hev _].
      * eapply Forall_impl; [exact Hquiet |]. by intros ev [Hev _].
  - intros E w opts extra <- Hwe Hmiss Hin.
    unfold FromAlpaca.getHistoryFromAlpaca.
    destruct (window_rejected_batch_throws E opts (FromAlpaca.window_end E w opts) e 49
                (FromAlpaca.initial E w opts) extra) as [s Hloop].
    + cbn [FromAlpaca.initial FromAlpaca.reqs FromAlpaca.world FromAlpaca.from app].
      rewrite (requestDay_unsupported _ _ _ _ _ _ e); done.
    + reflexivity.
    + exact Hin.
    + exists s. by rewrite Hloop.
Qed.

Example unsupported_timeframe_leaves_fixed_window :
  let e := UnsupportedTimeFrame "Alpaca integration does not support 5min timeframe" in
  convertTimeFrame "5min" = inl e /\
  exists s,
    FromAlpaca.getHistoryFromAlpaca Fixture.utc (50 + 0) Fixture.fresh
      (Fixture.window 4 0 "5min") = Threw s e.
Proof.
  intros e. split; [reflexivity |].
  apply (unsupported_timeframe_stays_offline "5min" e eq_refl); reflexivity || done.
Qed.

(** C6 (the defect).  A request for one Monday with an unsupported time
    frame, made to the explicit-range entry point: the string thrown by
    [convertTimeFrame] is caught by the [catch] block, a backoff sleep of
    20 000 ms is taken as for a failure that could pass, and the loop then
    stops because the chunk ends after the normalised end.  The caller is
    returned the empty list and never sees the error, which the
    fixed-window entry point throws to its caller for the same request
    day. *)
Theorem C6_unsupported_timeframe_is_swallowed :
  let out :=
    IntervalAlpaca.getHistoryIntervalAlpaca Fixture.utc 10 Fixture.fresh
      (Fixture.range Fixture.monday (Fixture.monday + 3600000) "5min") in
  convertTimeFrame "5min"
    = inl (UnsupportedTimeFrame "Alpaca integration does not support 5min timeframe") /\
  (exists s, out = Returned s []) /\
  IntervalAlpaca.log (final out)
  = [EvEnqueue Fixture.monday (Fixture.monday + DAY);
     EvCacheRead "history/alpaca/AAPL/5min/16097184-16098048.txt";
     EvFlush 1
       (Some (UnsupportedTimeFrame "Alpaca integration does not support 5min timeframe"));
     EvSleep 20000] /\
  exists s,
    FromAlpaca.getHistoryFromAlpaca Fixture.utc 10
      {| files := ∅; calls := 0; now := Fixture.monday + DAY + 3600000 |}
      (Fixture.window 1 0 "5min")
    = Threw s (UnsupportedTimeFrame "Alpaca integration does not support 5min timeframe") /\
    chunks (FromAlpaca.log s) = [(Fixture.monday, Fixture.monday + DAY)].
Proof.
  vm_compute. split; [reflexivity |]. split; [by eexists |].
  split; [reflexivity |]. eexists. split; reflexivity.
Qed.

(** * Further properties *)

(** ** The per-day task and the cache *)

(** X1.  What a per-day task does to the world: the module-level [now] is
    left alone; the provider is called at most once, and the call counter
    moves by the number of calls; the files are either left as they were,
    or the task found no usable file under the path of its chunk, resolved
    to the transformed bars and saved exactly those under that path.  A
    task that is rejected writes nothing. *)
Theorem X1_task_frame E w from to ticker interval :
  let path := getPath ticker interval from to in
  let '(w', evs, settled) := requestDay E w from to ticker interval in
  now w' = now w /\
  calls w' = (calls w + length (List.filter is_upstream evs))%nat /\
  (length (List.filter is_upstream evs) <= 1)%nat /\
  (files w' = files w \/
   exists candles,
     readFile w path = None /\
     settled = Resolved (Some (Some <$> candles)) /\
     files w' = <[path := JsonText (Some (Some <$> candles))]> (files w)) /\
  (forall e, settled = Rejected e -> files w' = files w).
Proof.
  intros path. unfold requestDay. fold path.
  destruct (isWeekend E from); [cbn; repeat split; auto with lia |].
  destruct (readFile w path) as [t |] eqn:Hread.
  - destruct (JSON_parse t); cbn; repeat split; auto with lia.
  - destruct (convertTimeFrame interval) as [e | tf]; [cbn; repeat split; auto with lia |].
    destruct (getBars E _ _ _ _ _) as [e | bars]; [cbn; repeat split; auto with lia |].
    destruct (isSameDay E _ _); cbn; repeat split; auto with lia.
    + right. by eexists.
    + discriminate.
Qed.

(** X2.  A day that was fetched and saved is served from the cache the
    next time: the same task, run in the world the first one left,
    resolves to the same value, and all it does is read the file. *)
Theorem X2_saved_day_is_served_from_cache E w from to ticker interval w1 evs value :
  requestDay E w from to ticker interval = (w1, evs, Resolved value) ->
  EvCacheWrite (getPath ticker interval from to) ∈ evs ->
  requestDay E w1 from to ticker interval
  = (w1, [EvCacheRead (getPath ticker interval from to)], Resolved value).
Proof.
  unfold requestDay.
  destruct (isWeekend E from); [intros [= <- <- <-] Hin; elem_cases Hin |].
  destruct (readFile w _) as [t |] eqn:Hread.
  { destruct (JSON_parse t); intros [= <- <- <-] Hin; elem_cases Hin. }
  destruct (convertTimeFrame interval) as [e | tf];
    [intros [= <- <- <-] Hin; elem_cases Hin |].
  destruct (getBars E _ _ _ _ _) as [e | bars]; [discriminate |].
  destruct (isSameDay E _ _); intros [= <- <- <-] Hin; [elem_cases Hin |].
  unfold readFile, saveDay; cbn. rewrite lookup_insert_eq. reflexivity.
Qed.

Lemma X2_witness :
  let path := getPath "AAPL" "day" Fixture.monday (Fixture.monday + DAY) in
  exists w1 evs value,
    requestDay Fixture.utc Fixture.fresh Fixture.monday (Fixture.monday + DAY)
      "AAPL" "day" = (w1, evs, Resolved value) /\
    EvCacheWrite path ∈ evs /\
    requestDay Fixture.utc w1 Fixture.monday (Fixture.monday + DAY) "AAPL" "day"
    = (w1, [EvCacheRead path], Resolved value).
Proof.
  intros path. eexists _, _, _.
  split; [vm_compute; reflexivity |].
  split; [vm_compute; apply list_elem_of_In; simpl; tauto |].
  eapply (X2_saved_day_is_served_from_cache Fixture.utc Fixture.fresh).
  - vm_compute; reflexivity.
  - vm_compute; apply list_elem_of_In; simpl; tauto.
Defined.

(** X3.  A damaged cache file is not taken for a miss: on a day that is no
    weekend day the task is rejected with the parse error, the provider is
    not called, and the world (the damaged file included) is left as it
    was, so that the same task fails again the next time. *)
Theorem X3_damaged_file_rejects E w from to ticker interval why :
  isWeekend E from = false ->
  files w !! getPath ticker interval from to = Some (DamagedText why) ->
  requestDay E w from to ticker interval
  = (w, [EvCacheRead (getPath ticker interval from to)],
     Rejected (JsonSyntaxError why)).
Proof.
  intros Hwe Hfile. unfold requestDay, readFile. by rewrite Hwe, Hfile.
Qed.

Lemma X3_witness :
  let path := getPath "AAPL" "day" Fixture.monday (Fixture.monday + DAY) in
  let w := {| files := {[ path := DamagedText "Unexpected token" ]};
              calls := 0; now := Fixture.monday |} in
  isWeekend Fixture.utc Fixture.monday = false /\
  requestDay Fixture.utc w Fixture.monday (Fixture.monday + DAY) "AAPL" "day"
  = (w, [EvCacheRead path], Rejected (JsonSyntaxError "Unexpected token")).
Proof.
  intros path w. split; [reflexivity |].
  apply X3_damaged_file_rejects; [reflexivity |].
  subst w. cbn [files]. apply lookup_singleton_eq.
Defined.

(** A file that holds text is never rewritten by a task. *)
Lemma requestDay_keeps_files E w from to ticker interval p t :
  files w !! p = Some t -> t <> EmptyText ->
  files (requestDay E w from to ticker interval).1.1 !! p = Some t.
Proof.
  intros Hfile Hne. unfold requestDay.
  destruct (isWeekend E from); [done |].
  destruct (readFile w _) as [t' |] eqn:Hread; [by destruct (JSON_parse t') |].
  destruct (convertTimeFrame interval) as [e | tf]; [done |].
  destruct (getBars E _ _ _ _ _) as [e | bars]; [done |].
  destruct (isSameDay E _ _); [done |]. cbn.
  destruct (decide (getPath ticker interval from to = p)) as [<- | Hp].
  - unfold readFile in Hread. rewrite Hfile in Hread. by destruct t.
  - by rewrite lookup_insert_ne.
Qed.

(** ** Invariants of whole runs *)

(** A property of the locals that every turn taken under the loop test
    preserves holds when the explicit-range loop stops. *)
Lemma interval_loop_invariant E opts (I : IntervalAlpaca.Locals -> Prop) :
  (forall s, I s -> IntervalAlpaca.to s <= IntervalAlpaca.normalized_end opts ->
             I (snd (IntervalAlpaca.iteration E opts s))) ->
  forall fuel s, I s -> I (final (IntervalAlpaca.loop E opts fuel s)).
Proof.
  intros Hstep. induction fuel as [| fuel IH]; intros s Hs; simpl.
  - by destruct (_ <=? _).
  - destruct (Z.leb_spec (IntervalAlpaca.to s) (IntervalAlpaca.normalized_end opts));
      [| done].
    apply IH. by apply Hstep.
Qed.

Lemma interval_loop_returned E opts fuel s s' u :
  IntervalAlpaca.loop E opts fuel s = Returned s' u ->
  IntervalAlpaca.normalized_end opts < IntervalAlpaca.to s'.
Proof.
  revert s. induction fuel as [| fuel IH]; intros s; simpl;
    destruct (Z.leb_spec (IntervalAlpaca.to s) (IntervalAlpaca.normalized_end opts));
    try discriminate; try (by intros [= <- _]).
  apply IH.
Qed.

(** The same for the fixed-window loop; the property also holds of the
    locals an error leaves behind. *)
Lemma window_loop_invariant E opts end' (I : FromAlpaca.Locals -> Prop) :
  (forall s, I s -> FromAlpaca.to s <= end' ->
             I (snd (FromAlpaca.iteration E opts end' s))) ->
  forall fuel s, I s -> I (final (FromAlpaca.loop E opts end' fuel s)).
Proof.
  intros Hstep. induction fuel as [| fuel IH]; intros s Hs; simpl.
  - by destruct (_ <=? _).
  - destruct (Z.leb_spec (FromAlpaca.to s) end'); [| done].
    specialize (Hstep s Hs ltac:(done)).
    destruct (FromAlpaca.iteration E opts end' s) as [[| | e | e] s'];
      simpl in Hstep; try (by apply IH). exact Hstep.
Qed.

Lemma window_loop_returned E opts end' fuel s s' u :
  FromAlpaca.loop E opts end' fuel s = Returned s' u -> end' < FromAlpaca.to s'.
Proof.
  revert s. induction fuel as [| fuel IH]; intros s; simpl;
    destruct (Z.leb_spec (FromAlpaca.to s) end');
    try discriminate; try (by intros [= <- _]).
  destruct (FromAlpaca.iteration E opts end' s) as [[| | e | e] s1];
    try discriminate; apply IH.
Qed.

Lemma on_grid_next b x : on_grid b x -> on_grid b (x + DAY).
Proof. intros (k & Hk & ->). exists (k + 1). split; lia. Qed.

Lemma interval_iteration_steady E opts s :
  interval_steady E opts s ->
  IntervalAlpaca.to s <= IntervalAlpaca.normalized_end opts ->
  interval_steady E opts (snd (IntervalAlpaca.iteration E opts s)).
Proof.
  intros (Hlen & Hflight & Hfrom & Hle & Hcs & Hfl & Hch) Hto.
  unfold IntervalAlpaca.iteration. change (86400 * 1000) with DAY.
  pose proof (requestDay_events E (IntervalAlpaca.world s) (IntervalAlpaca.from s)
                (IntervalAlpaca.from s + DAY) (IntervalAlpaca.ticker opts)
                (IntervalAlpaca.interval opts)) as Hevs.
  destruct (requestDay _ _ _ _ _ _) as [[w1 evs] promise]. simpl in Hevs.
  apply fetch_events_silent in Hevs as (Hc & Hf & _).
  set (cs' := if unset (IntervalAlpaca.chunkStart s) then IntervalAlpaca.from s
              else default (IntervalAlpaca.from s) (IntervalAlpaca.chunkStart s)).
  assert (Hcs' : on_grid (IntervalAlpaca.normalized_start E opts) cs' /\
                 cs' <= IntervalAlpaca.from s).
  { subst cs'. destruct (unset _); [split; [done | lia] |].
    destruct (IntervalAlpaca.chunkStart s) as [cs |]; [by apply Hcs |].
    split; [done | simpl; lia]. }
  assert (Hday : 0 < DAY) by done.
  assert (Hch' : Forall (day_within (IntervalAlpaca.normalized_start E opts)
                           (IntervalAlpaca.normalized_end opts))
                   (chunks (IntervalAlpaca.log s ++
                            EvEnqueue (IntervalAlpaca.from s) (IntervalAlpaca.from s + DAY)
                            :: evs))).
  { rewrite chunks_app.
    change (chunks (EvEnqueue ?a ?b :: ?r)) with ((a, b) :: chunks r). rewrite Hc.
    apply Forall_app_2; [done |]. constructor; [| constructor].
    repeat split; [done | simpl; lia]. }
  assert (Hfl' : Forall (fun n => 1 <= n <= 50)%nat
                   (flushes (IntervalAlpaca.log s ++
                             EvEnqueue (IntervalAlpaca.from s) (IntervalAlpaca.from s + DAY)
                             :: evs))).
  { rewrite flushes_app.
    change (flushes (EvEnqueue ?a ?b :: ?r)) with (flushes r).
    by rewrite Hf, app_nil_r. }
  destruct (_ || _) eqn:Hflush.
  - assert (Hsize : (1 <= length (IntervalAlpaca.reqs s ++ [promise]) <= 50)%nat)
      by (rewrite length_app; simpl; lia).
    unfold collectCandles.
    pose proof (concat_days_events (IntervalAlpaca.reqs s ++ [promise])) as Hmissed.
    destruct (first_rejection _) as [e |]; cbn [snd].
    + unfold interval_steady; cbn [snd IntervalAlpaca.reqs IntervalAlpaca.to IntervalAlpaca.from IntervalAlpaca.chunkStart IntervalAlpaca.log length]; split_and!; try done; try lia.
      * by left.
      * apply Hcs'.
      * intros cs [= <-]. split; [apply Hcs' | lia].
      * rewrite flushes_app. apply Forall_app_2; [done |].
        exact (Forall_cons_2 _ _ [] Hsize (Forall_nil_2 _)).
      * rewrite chunks_app. apply Forall_app_2; [done |]. apply Forall_nil_2.
    + destruct (concat_days _) as [missed data]. simpl in Hmissed.
      apply missed_events_silent in Hmissed as (Hmc & Hmf & _).
      unfold interval_steady; cbn [snd IntervalAlpaca.reqs IntervalAlpaca.to IntervalAlpaca.from IntervalAlpaca.chunkStart IntervalAlpaca.log length]; split_and!; try done; try lia.
      * by left.
      * by apply on_grid_next.
      * intros cs [= <-]. split; [by apply on_grid_next | lia].
      * rewrite flushes_app. apply Forall_app_2; [done |].
        change (flushes (EvFlush ?n ?f :: ?r)) with (n :: flushes r).
        rewrite Hmf. exact (Forall_cons_2 _ _ [] Hsize (Forall_nil_2 _)).
      * rewrite chunks_app. apply Forall_app_2; [done |].
        change (chunks (EvFlush ?n ?f :: ?r)) with (chunks r). by rewrite Hmc.
  - apply orb_false_iff in Hflush as [Hfifty Hend].
    apply Nat.eqb_neq in Hfifty. rewrite length_app in Hfifty. simpl in Hfifty.
    destruct (Z.geb_spec (IntervalAlpaca.from s + DAY) (IntervalAlpaca.normalized_end opts));
      [discriminate |].
    unfold interval_steady; cbn [snd IntervalAlpaca.reqs IntervalAlpaca.to IntervalAlpaca.from IntervalAlpaca.chunkStart IntervalAlpaca.log length]; split_and!; try done; try lia.
    + rewrite length_app. simpl. lia.
    + by apply on_grid_next.
    + intros cs [= <-]. split; [apply Hcs' | lia].
Qed.

Lemma interval_initial_steady E w opts :
  interval_steady E opts (IntervalAlpaca.initial E w opts).
Proof.
  unfold interval_steady, IntervalAlpaca.initial;
    cbn [IntervalAlpaca.reqs IntervalAlpaca.to IntervalAlpaca.from
         IntervalAlpaca.chunkStart IntervalAlpaca.log length].
  split_and!; try done; try (simpl; lia); try apply Forall_nil_2;
    try (exists 0; lia); by left.
Qed.

Lemma interval_final_steady E fuel w opts :
  interval_steady E opts
    (final (IntervalAlpaca.getHistoryIntervalAlpaca E fuel w opts)).
Proof.
  rewrite interval_final. apply interval_loop_invariant.
  - apply interval_iteration_steady.
  - apply interval_initial_steady.
Qed.

(** X4.  In the explicit-range entry point, whatever the provider does:
    every call of [collectCandles] is handed at least one and at most 50
    promises, and the array [reqs] holds fewer than 50 promises at every
    loop test. *)
Theorem X4_interval_batches_are_bounded E fuel w opts :
  let out := IntervalAlpaca.getHistoryIntervalAlpaca E fuel w opts in
  Forall (fun n => 1 <= n <= 50)%nat (flushes (IntervalAlpaca.log (final out))) /\
  (length (IntervalAlpaca.reqs (final out)) < 50)%nat.
Proof.
  intros out.
  destruct (interval_final_steady E fuel w opts) as (Hlen & _ & _ & _ & _ & Hfl & _).
  by split.
Qed.

(** X5.  In the explicit-range entry point, whatever the provider does,
    every chunk for which a task is started is one day long, starts a whole
    number of days after the normalised start, and ends no later than one
    day after the normalised end less the time-zone offset reduced modulo
    one day.  Hence no task ever covers an instant before the normalised
    start, nor an instant from that upper bound on. *)
Theorem X5_interval_chunks_stay_in_range E fuel w opts a b :
  let out := IntervalAlpaca.getHistoryIntervalAlpaca E fuel w opts in
  let shift := (timezoneOffset E * 60 * 1000) mod DAY in
  (a, b) ∈ chunks (IntervalAlpaca.log (final out)) ->
  b = a + DAY /\
  on_grid (IntervalAlpaca.normalized_start E opts) a /\
  IntervalAlpaca.normalized_start E opts <= a /\
  b <= IntervalAlpaca.normalized_end opts + DAY - shift.
Proof.
  intros out shift Hin.
  destruct (interval_final_steady E fuel w opts) as (_ & _ & _ & _ & _ & _ & Hch).
  fold out in Hch. rewrite Forall_forall in Hch.
  destruct (Hch _ Hin) as (Hb & Hgrid & Hle). cbn [fst snd] in Hb, Hgrid, Hle.
  split; [exact Hb |]. split; [exact Hgrid |].
  destruct Hgrid as (k & Hk & Ha).
  subst shift.
  unfold IntervalAlpaca.normalized_start, IntervalAlpaca.normalized_end in *.
  set (s0 := trunc_div (IntervalAlpaca.start opts) 86400000) in *.
  set (e0 := trunc_div (IntervalAlpaca.end_ opts) 86400000) in *.
  set (off := timezoneOffset E * 60 * 1000) in *.
  pose proof (Z.div_mod off DAY ltac:(done)) as Hoff.
  pose proof (Z.mod_pos_bound off DAY ltac:(done)) as Hshift.
  unfold DAY in *. split; lia.
Qed.

Lemma X5_witness :
  let out :=
    IntervalAlpaca.getHistoryIntervalAlpaca Fixture.flaky 10 Fixture.fresh
      (Fixture.range Fixture.monday (Fixture.monday + 2 * DAY) "day") in
  let shift := (timezoneOffset Fixture.flaky * 60 * 1000) mod DAY in
  (Fixture.monday + DAY, Fixture.monday + 2 * DAY)
    ∈ chunks (IntervalAlpaca.log (final out)) /\
  Fixture.monday + 2 * DAY = Fixture.monday + DAY + DAY /\
  on_grid (IntervalAlpaca.normalized_start Fixture.flaky
             (Fixture.range Fixture.monday (Fixture.monday + 2 * DAY) "day"))
          (Fixture.monday + DAY) /\
  IntervalAlpaca.normalized_start Fixture.flaky
    (Fixture.range Fixture.monday (Fixture.monday + 2 * DAY) "day")
  <= Fixture.monday + DAY /\
  Fixture.monday + 2 * DAY
  <= IntervalAlpaca.normalized_end
       (Fixture.range Fixture.monday (Fixture.monday + 2 * DAY) "day") + DAY - shift.
Proof.
  intros out shift.
  assert (Hin : (Fixture.monday + DAY, Fixture.monday + 2 * DAY)
                  ∈ chunks (IntervalAlpaca.log (final out))).
  { vm_compute. apply list_elem_of_In. simpl. tauto. }
  split; [exact Hin |].
  exact (X5_interval_chunks_stay_in_range Fixture.flaky 10 Fixture.fresh
           (Fixture.range Fixture.monday (Fixture.monday + 2 * DAY) "day") _ _ Hin).
Defined.

(** ** Progress accounting in the fixed-window entry point *)

Lemma kept_days_app evs1 evs2 : kept_days (evs1 ++ evs2) = kept_days evs1 + kept_days evs2.
Proof.
  induction evs1 as [| ev evs1 IH]; [done |].
  destruct ev as [| | | | n [e |] | | | | |]; simpl; lia.
Qed.

Lemma kept_days_neutral evs : Forall neutral evs -> kept_days evs = 0.
Proof.
  induction 1 as [| ev evs Hev _ IH]; [done |]. by destruct ev.
Qed.

Lemma window_iteration_steady E opts end' s :
  window_steady end' s -> FromAlpaca.to s <= end' ->
  window_steady end' (snd (FromAlpaca.iteration E opts end' s)).
Proof.
  intros (Hlen & Hflight & Hpv & Hfl) Hto.
  unfold FromAlpaca.iteration. change (86400 * 1000) with DAY.
  pose proof (requestDay_events E (FromAlpaca.world s) (FromAlpaca.from s)
                (FromAlpaca.from s + DAY) (FromAlpaca.ticker opts)
                (FromAlpaca.interval opts)) as Hevs.
  destruct (requestDay _ _ _ _ _ _) as [[w1 evs] promise]. simpl in Hevs.
  pose proof (fetch_events_neutral _ Hevs) as Hneutral.
  apply fetch_events_silent in Hevs as (_ & Hf & _).
  assert (Hkept : kept_days (FromAlpaca.log s ++
                    EvEnqueue (FromAlpaca.from s) (FromAlpaca.from s + DAY) :: evs)
                  = kept_days (FromAlpaca.log s)).
  { rewrite kept_days_app. change (kept_days (EvEnqueue ?a ?b :: ?r)) with (kept_days r).
    rewrite (kept_days_neutral evs) by done. lia. }
  assert (Hfl' : Forall (fun n => 1 <= n <= 50)%nat
                   (flushes (FromAlpaca.log s ++
                             EvEnqueue (FromAlpaca.from s) (FromAlpaca.from s + DAY)
                             :: evs))).
  { rewrite flushes_app. change (flushes (EvEnqueue ?a ?b :: ?r)) with (flushes r).
    by rewrite Hf, app_nil_r. }
  assert (Hsize : (1 <= length (FromAlpaca.reqs s ++ [promise]) <= 50)%nat)
    by (rewrite length_app; simpl; lia).
  destruct (_ || _) eqn:Hflush.
  - unfold collectCandles.
    pose proof (concat_days_events (FromAlpaca.reqs s ++ [promise])) as Hmissed.
    destruct (first_rejection _) as [e |].
    + rewrite orb_negb_r.
      unfold window_steady;
        cbn [snd FromAlpaca.reqs FromAlpaca.to FromAlpaca.progressValue
             FromAlpaca.log length].
      split_and!; [lia | by left | |].
      * rewrite kept_days_app, Hkept, length_app. simpl. lia.
      * rewrite flushes_app. apply Forall_app_2; [done |].
        exact (Forall_cons_2 _ _ [] Hsize (Forall_nil_2 _)).
    + destruct (concat_days _) as [missed data]. simpl in Hmissed.
      pose proof (missed_events_neutral _ Hmissed) as Hmn.
      apply missed_events_silent in Hmissed as (_ & Hmf & _).
      unfold window_steady;
        cbn [snd FromAlpaca.reqs FromAlpaca.to FromAlpaca.progressValue
             FromAlpaca.log length].
      split_and!; [lia | by left | |].
      * rewrite kept_days_app, Hkept.
        change (kept_days (EvFlush ?n None :: ?r)) with (Z.of_nat n + kept_days r).
        rewrite kept_days_app, (kept_days_neutral missed) by done.
        rewrite length_app. simpl. lia.
      * rewrite flushes_app. apply Forall_app_2; [done |].
        change (flushes (EvFlush ?n ?f :: ?r)) with (n :: flushes r).
        rewrite flushes_app, Hmf.
        exact (Forall_cons_2 _ _ [] Hsize (Forall_nil_2 _)).
  - apply orb_false_iff in Hflush as [Hfifty Hend].
    apply Nat.eqb_neq in Hfifty.
    destruct (Z.geb_spec (FromAlpaca.from s + DAY) end'); [discriminate |].
    unfold window_steady;
      cbn [snd FromAlpaca.reqs FromAlpaca.to FromAlpaca.progressValue
           FromAlpaca.log length].
    split_and!; [lia | by right | |].
    + rewrite kept_days_app, Hkept, length_app. simpl. lia.
    + rewrite flushes_app. apply Forall_app_2; [done |]. apply Forall_nil_2.
Qed.

Lemma window_initial_steady E w opts end' :
  window_steady end' (FromAlpaca.initial E w opts).
Proof.
  unfold window_steady, FromAlpaca.initial;
    cbn [FromAlpaca.reqs FromAlpaca.to FromAlpaca.progressValue FromAlpaca.log length].
  split_and!; [lia | by left | reflexivity | apply Forall_nil_2].
Qed.

(** X6.  In the fixed-window entry point, whatever the provider does:
    when the loop stops, by returning or by throwing, the progress position
    is the number of days of the batches that were flushed and kept (when
    a flush has failed, the days of the failed batch have been taken back
    from the position); and every call of [collectCandles] is handed
    between 1 and 50 promises. *)
Theorem X6_window_progress_counts_kept_days E fuel w opts :
  let out := FromAlpaca.getHistoryFromAlpaca E fuel w opts in
  Forall (fun n => 1 <= n <= 50)%nat (flushes (FromAlpaca.log (final out))) /\
  (forall s, (exists candles, out = Returned s candles) \/ (exists e, out = Threw s e) ->
     FromAlpaca.progressValue s = kept_days (FromAlpaca.log s)).
Proof.
  intros out. subst out. unfold FromAlpaca.getHistoryFromAlpaca.
  pose proof (window_loop_invariant E opts (FromAlpaca.window_end E w opts)
                (window_steady (FromAlpaca.window_end E w opts))
                (window_iteration_steady E opts _) fuel _
                (window_initial_steady E w opts _)) as Hsteady.
  destruct (FromAlpaca.loop _ _ _ _ _) as [s' [] | s' e' | s'] eqn:Hloop;
    cbn [final] in *; destruct Hsteady as (Hlen & Hflight & Hpv & Hfl).
  - split.
    + cbn [FromAlpaca.log]. rewrite flushes_app. apply Forall_app_2; [done |].
      apply Forall_nil_2.
    + intros s [[candles [= <- _]] | [e [=]]].
      apply window_loop_returned in Hloop.
      cbn [FromAlpaca.progressValue FromAlpaca.log].
      destruct Hflight as [Hnil | Hlt]; [| lia].
      rewrite kept_days_app, Hpv, Hnil. simpl. lia.
  - split; [done |].
    intros s [[candles [=]] | [e [= <- _]]].
    assert (Hnil : FromAlpaca.reqs s' = []).
    { clear -Hloop. revert Hloop. generalize (FromAlpaca.initial E w opts).
      induction fuel as [| fuel IH]; intros s0; simpl;
        destruct (_ <=? _); try discriminate.
      unfold FromAlpaca.iteration at 1.
      destruct (requestDay _ _ _ _ _ _) as [[w1 evs] promise].
      destruct (_ || _);
        [destruct (collectCandles _) as [e | [missed data]];
         [rewrite orb_negb_r; by intros [= <- _] |] |]; apply IH. }
    rewrite Hpv, Hnil. simpl. lia.
  - split; [done |]. intros s [[candles [=]] | [e [=]]].
Qed.

(** ** The cache over whole retrievals *)

Lemma interval_iteration_world E opts s :
  IntervalAlpaca.world (snd (IntervalAlpaca.iteration E opts s))
  = (requestDay E (IntervalAlpaca.world s) (IntervalAlpaca.from s)
       (IntervalAlpaca.from s + DAY) (IntervalAlpaca.ticker opts)
       (IntervalAlpaca.interval opts)).1.1.
Proof.
  unfold IntervalAlpaca.iteration. change (86400 * 1000) with DAY.
  destruct (requestDay _ _ _ _ _ _) as [[w1 evs] promise].
  destruct (_ || _); [destruct (collectCandles _) as [e | [missed data]] |];
    reflexivity.
Qed.

Lemma window_iteration_world E opts end' s :
  FromAlpaca.world (snd (FromAlpaca.iteration E opts end' s))
  = (requestDay E (FromAlpaca.world s) (FromAlpaca.from s)
       (FromAlpaca.from s + DAY) (FromAlpaca.ticker opts)
       (FromAlpaca.interval opts)).1.1.
Proof.
  unfold FromAlpaca.iteration. change (86400 * 1000) with DAY.
  destruct (requestDay _ _ _ _ _ _) as [[w1 evs] promise].
  destruct (_ || _);
    [destruct (collectCandles _) as [e | [missed data]];
     [destruct (_ || _) |] |];
    reflexivity.
Qed.

(** X7.  Neither entry point ever rewrites or removes a cache file that
    holds text: whatever the provider does and however the retrieval ends,
    such a file holds the same text afterwards. *)
Theorem X7_cache_files_are_never_rewritten E fuel w p t :
  files w !! p = Some t -> t <> EmptyText ->
  (forall opts,
     files (IntervalAlpaca.world
              (final (IntervalAlpaca.getHistoryIntervalAlpaca E fuel w opts))) !! p
     = Some t) /\
  (forall opts,
     files (FromAlpaca.world
              (final (FromAlpaca.getHistoryFromAlpaca E fuel w opts))) !! p
     = Some t).
Proof.
  intros Hfile Hne. split; intros opts.
  - rewrite interval_final.
    apply (interval_loop_invariant E opts
             (fun s => files (IntervalAlpaca.world s) !! p = Some t));
      [| exact Hfile].
    intros s Hs _. rewrite interval_iteration_world.
    by apply requestDay_keeps_files.
  - assert (Hloop : files (FromAlpaca.world
                             (final (FromAlpaca.loop E opts (FromAlpaca.window_end E w opts)
                                       fuel (FromAlpaca.initial E w opts)))) !! p = Some t).
    { apply (window_loop_invariant E opts _
               (fun s => files (FromAlpaca.world s) !! p = Some t));
        [| exact Hfile].
      intros s Hs _. rewrite window_iteration_world.
      by apply requestDay_keeps_files. }
    unfold FromAlpaca.getHistoryFromAlpaca.
    by destruct (FromAlpaca.loop _ _ _ _ _).
Qed.

Lemma X7_witness :
  let p := "history/alpaca/AAPL/day/16097184-16098048.txt" in
  let w := {| files := {[ p := JsonText (Some []) ]}; calls := 0;
              now := Fixture.monday + 60 * DAY |} in
  files w !! p = Some (JsonText (Some [])) /\
  files (IntervalAlpaca.world
           (final (IntervalAlpaca.getHistoryIntervalAlpaca Fixture.utc 5 w
                     (Fixture.range Fixture.monday (Fixture.monday + DAY) "day")))) !! p
  = Some (JsonText (Some [])).
Proof.
  intros p w.
  assert (Hfile : files w !! p = Some (JsonText (Some [])))
    by apply lookup_singleton_eq.
  split; [exact Hfile |].
  apply (X7_cache_files_are_never_rewritten Fixture.utc 5 w p _ Hfile); discriminate.
Defined.

(** ** Fixed windows of any length *)

Lemma positions_lookup p m i :
  (i < m)%nat -> positions p m !! i = Some (p + Z.of_nat i + 1).
Proof.
  revert p i. induction m as [| m IH]; intros p i Hi; [lia |].
  destruct i as [| i]; simpl.
  - f_equal; lia.
  - rewrite IH by lia. f_equal; lia.
Qed.

Lemma positions_length p m : length (positions p m) = m.
Proof. revert p. induction m as [| m IH]; intros p; simpl; auto. Qed.

Lemma window_span E w opts :
  FromAlpaca.window_end E w opts - FromAlpaca.window_start E w opts
  = if FromAlpaca.gapDays opts =? 0
    then FromAlpaca.days opts * DAY - 900000
    else FromAlpaca.days opts * DAY.
Proof.
  unfold FromAlpaca.window_end, FromAlpaca.window_start, DAY.
  destruct (_ =? _); lia.
Qed.

(** X8.  A fixed window of [days >= 1] days with no trailing gap, none of
    whose tasks fails, returns after exactly [days] turns: one task is
    started for each of the [days] consecutive days from the start of the
    window, the sink is moved to 1, 2, ..., [days], one position per turn,
    and is set to [days] once more before it is stopped. *)
Theorem X8_window_without_gap E w opts :
  reliable E -> supported (FromAlpaca.interval opts) -> readable w ->
  FromAlpaca.gapDays opts = 0 -> 1 <= FromAlpaca.days opts ->
  let n := Z.to_nat (FromAlpaca.days opts) in
  exists s candles,
    FromAlpaca.getHistoryFromAlpaca E n w opts = Returned s candles /\
    chunks (FromAlpaca.log s) = day_chunks (FromAlpaca.window_start E w opts) n /\
    updates (FromAlpaca.log s) = positions 0 n ++ [FromAlpaca.days opts].
Proof.
  intros Hrel Hsup Hw Hgap Hdays n.
  pose proof (window_span E w opts) as Hspan. rewrite Hgap in Hspan. cbn [Z.eqb] in Hspan.
  assert (Hn : Z.of_nat n = FromAlpaca.days opts) by (subst n; lia).
  destruct (window_run E opts (FromAlpaca.window_end E w opts) Hrel Hsup n
              (FromAlpaca.initial E w opts) 0)
    as (s & Hloop & Hchunks & _ & Hupdates & _);
    try (reflexivity || exact Hw
         || (intros; cbn [FromAlpaca.initial FromAlpaca.from];
             unfold DAY in *; lia)).
  rewrite Nat.add_0_r in Hloop.
  cbn [FromAlpaca.initial FromAlpaca.from FromAlpaca.log FromAlpaca.progressValue]
    in Hchunks, Hupdates.
  unfold FromAlpaca.getHistoryFromAlpaca. rewrite Hloop.
  eexists _, _. split; [reflexivity |].
  cbn [FromAlpaca.log]. rewrite chunks_app, updates_app, Hchunks, Hupdates.
  split; [by rewrite app_nil_r | reflexivity].
Qed.

Lemma X8_witness :
  let opts := Fixture.window 3 0 "day" in
  let n := Z.to_nat (FromAlpaca.days opts) in
  exists s candles,
    FromAlpaca.getHistoryFromAlpaca Fixture.utc n Fixture.fresh opts
      = Returned s candles /\
    chunks (FromAlpaca.log s)
      = day_chunks (FromAlpaca.window_start Fixture.utc Fixture.fresh opts) n /\
    updates (FromAlpaca.log s) = positions 0 n ++ [FromAlpaca.days opts].
Proof.
  intros opts n.
  apply (X8_window_without_gap Fixture.utc Fixture.fresh opts
           utc_reliable day_supported fresh_readable); [reflexivity | done].
Defined.

(** X9.  A fixed window of [days >= 0] days with a trailing gap, none of
    whose tasks fails, takes one turn more than it has days: after the
    days of the window a task is also started for the day that begins at
    the end of the window, and the sink is moved to the position
    [days + 1], beyond the total it was started with, before it is set
    back to [days]. *)
Theorem X9_window_with_gap_takes_one_more_day E w opts :
  reliable E -> supported (FromAlpaca.interval opts) -> readable w ->
  FromAlpaca.gapDays opts <> 0 -> 0 <= FromAlpaca.days opts ->
  let n := Z.to_nat (FromAlpaca.days opts) in
  exists s candles,
    FromAlpaca.getHistoryFromAlpaca E (S n) w opts = Returned s candles /\
    chunks (FromAlpaca.log s) = day_chunks (FromAlpaca.window_start E w opts) (S n) /\
    chunks (FromAlpaca.log s) !! n
      = Some (FromAlpaca.window_end E w opts, FromAlpaca.window_end E w opts + DAY) /\
    updates (FromAlpaca.log s) = positions 0 (S n) ++ [FromAlpaca.days opts] /\
    updates (FromAlpaca.log s) !! n = Some (FromAlpaca.days opts + 1).
Proof.
  intros Hrel Hsup Hw Hgap Hdays n.
  pose proof (window_span E w opts) as Hspan.
  destruct (Z.eqb_spec (FromAlpaca.gapDays opts) 0) as [| _]; [done |].
  assert (Hn : Z.of_nat n = FromAlpaca.days opts) by (subst n; lia).
  destruct (window_run E opts (FromAlpaca.window_end E w opts) Hrel Hsup (S n)
              (FromAlpaca.initial E w opts) 0)
    as (s & Hloop & Hchunks & _ & Hupdates & _);
    try (reflexivity || exact Hw
         || (intros; cbn [FromAlpaca.initial FromAlpaca.from];
             unfold DAY in *; lia)).
  rewrite Nat.add_0_r in Hloop.
  cbn [FromAlpaca.initial FromAlpaca.from FromAlpaca.log FromAlpaca.progressValue]
    in Hchunks, Hupdates.
  unfold FromAlpaca.getHistoryFromAlpaca. rewrite Hloop.
  eexists _, _. split; [reflexivity |].
  cbn [FromAlpaca.log]. rewrite chunks_app, updates_app, Hchunks, Hupdates.
  change (chunks [EvLog ?a; EvProgressStart ?b ?c]) with (@nil (Z * Z)).
  change (chunks [EvProgressUpdate ?a; EvProgressStop]) with (@nil (Z * Z)).
  change (updates [EvLog ?a; EvProgressStart ?b ?c]) with (@nil Z).
  change (updates [EvProgressUpdate ?a; EvProgressStop]) with [a].
  rewrite app_nil_r. cbn [app].
  split; [reflexivity |].
  split; [rewrite day_chunks_lookup by lia; do 2 f_equal; unfold DAY in *; lia |].
  split; [reflexivity |].
  rewrite lookup_app_l by (rewrite positions_length; lia).
  rewrite positions_lookup by lia. f_equal; lia.
Qed.

Lemma X9_witness :
  let opts := Fixture.window 3 1 "day" in
  let n := Z.to_nat (FromAlpaca.days opts) in
  exists s candles,
    FromAlpaca.getHistoryFromAlpaca Fixture.utc (S n) Fixture.fresh opts
      = Returned s candles /\
    chunks (FromAlpaca.log s)
      = day_chunks (FromAlpaca.window_start Fixture.utc Fixture.fresh opts) (S n) /\
    chunks (FromAlpaca.log s) !! n
      = Some (FromAlpaca.window_end Fixture.utc Fixture.fresh opts,
              FromAlpaca.window_end Fixture.utc Fixture.fresh opts + DAY) /\
    updates (FromAlpaca.log s) = positions 0 (S n) ++ [FromAlpaca.days opts] /\
    updates (FromAlpaca.log s) !! n = Some (FromAlpaca.days opts + 1).
Proof.
  intros opts n.
  apply (X9_window_with_gap_takes_one_more_day Fixture.utc Fixture.fresh opts
           utc_reliable day_supported fresh_readable); done.
Defined.

(** X10.  A fixed window of no days (or of a negative number of days) with
    no trailing gap starts no task at all: whatever the fuel and whatever
    the provider would answer, the empty list is returned, the files and
    the call counter are left as they were, and the only events are the
    opening log line and the start, the final update and the stop of the
    progress sink. *)
Theorem X10_empty_window E fuel w opts :
  FromAlpaca.gapDays opts = 0 -> FromAlpaca.days opts <= 0 ->
  exists s,
    FromAlpaca.getHistoryFromAlpaca E fuel w opts = Returned s [] /\
    FromAlpaca.log s
      = [EvLog (LogHistoryLoadingFrom (FromAlpaca.window_start E w opts));
         EvProgressStart (FromAlpaca.days opts) 0;
         EvProgressUpdate (FromAlpaca.days opts);
         EvProgressStop] /\
    files (FromAlpaca.world s) = files w /\
    calls (FromAlpaca.world s) = calls w.
Proof.
  intros Hgap Hdays.
  pose proof (window_span E w opts) as Hspan. rewrite Hgap in Hspan. cbn [Z.eqb] in Hspan.
  unfold FromAlpaca.getHistoryFromAlpaca.
  rewrite window_loop_exit
    by (cbn [FromAlpaca.initial FromAlpaca.to]; unfold DAY in *; lia).
  eexists. split; [reflexivity |]. repeat split.
Qed.

Lemma X10_witness :
  exists s,
    FromAlpaca.getHistoryFromAlpaca Fixture.flaky 0 Fixture.fresh
      (Fixture.window 0 0 "5min") = Returned s [] /\
    FromAlpaca.log s
      = [EvLog (LogHistoryLoadingFrom
                  (FromAlpaca.window_start Fixture.flaky Fixture.fresh
                     (Fixture.window 0 0 "5min")));
         EvProgressStart (FromAlpaca.days (Fixture.window 0 0 "5min")) 0;
         EvProgressUpdate (FromAlpaca.days (Fixture.window 0 0 "5min"));
         EvProgressStop] /\
    files (FromAlpaca.world s) = files Fixture.fresh /\
    calls (FromAlpaca.world s) = calls Fixture.fresh.
Proof. apply X10_empty_window; [reflexivity | done]. Defined.

(** ** Ranges of any length *)

(** X11.  With a provider that answers, a supported time frame and no
    damaged cache file, the explicit-range entry point returns for every
    request whose normalised start is not after its normalised end: it
    takes one turn per day boundary from the normalised start up to the
    normalised end, and the chunks it starts are the consecutive days from
    the normalised start, each started exactly once. *)
Theorem X11_interval_returns_when_provider_answers E w opts :
  reliable E -> supported (IntervalAlpaca.interval opts) -> readable w ->
  IntervalAlpaca.normalized_start E opts <= IntervalAlpaca.normalized_end opts ->
  let m :=
    S (Z.to_nat ((IntervalAlpaca.normalized_end opts
                  - IntervalAlpaca.normalized_start E opts) / DAY)) in
  exists s candles,
    IntervalAlpaca.getHistoryIntervalAlpaca E m w opts = Returned s candles /\
    chunks (IntervalAlpaca.log s)
      = day_chunks (IntervalAlpaca.normalized_start E opts) m.
Proof. apply interval_returns_when_reliable. Qed.

Lemma X11_witness :
  let opts := Fixture.range Fixture.monday (Fixture.monday + 3 * DAY + 5) "day" in
  let m :=
    S (Z.to_nat ((IntervalAlpaca.normalized_end opts
                  - IntervalAlpaca.normalized_start Fixture.utc opts) / DAY)) in
  exists s candles,
    IntervalAlpaca.getHistoryIntervalAlpaca Fixture.utc m Fixture.fresh opts
      = Returned s candles /\
    chunks (IntervalAlpaca.log s)
      = day_chunks (IntervalAlpaca.normalized_start Fixture.utc opts) m.
Proof.
  intros opts m.
  apply (X11_interval_returns_when_provider_answers Fixture.utc Fixture.fresh opts
           utc_reliable day_supported fresh_readable).
  vm_compute. discriminate.
Defined.

(** For a timestamp of the epoch's first [2^31] days, [~~(x / 86400000)] is
    the number of whole days before it. *)
Lemma trunc_div_day x :
  0 <= x < 2 ^ 31 * DAY -> trunc_div x 86400000 = x / DAY.
Proof.
  intros [Hlo Hhi]. unfold trunc_div, to_int32.
  rewrite Z.quot_div_nonneg by lia. change 86400000 with DAY.
  assert (0 <= x / DAY < 2 ^ 31).
  { split; [apply Z.div_pos; unfold DAY; lia |].
    apply Z.div_lt_upper_bound; unfold DAY in *; lia. }
  rewrite Z.mod_small by lia. lia.
Qed.

Lemma day_chunks_cover b m t :
  b <= t < b + Z.of_nat m * DAY ->
  exists a c, (a, c) ∈ day_chunks b m /\ a <= t < c.
Proof.
  intros [Hlo Hhi].
  set (i := Z.to_nat ((t - b) / DAY)).
  pose proof (Z.mul_div_le (t - b) DAY ltac:(done)) as Hle.
  pose proof (Z.mul_succ_div_gt (t - b) DAY ltac:(done)) as Hgt.
  assert (Hi0 : 0 <= (t - b) / DAY) by (apply Z.div_pos; unfold DAY; lia).
  assert (Hi : (i < m)%nat).
  { subst i. apply Nat2Z.inj_lt. rewrite Z2Nat.id by done.
    apply Z.div_lt_upper_bound; unfold DAY in *; lia. }
  exists (b + Z.of_nat i * DAY), (b + Z.of_nat i * DAY + DAY). split.
  - apply list_elem_of_lookup. exists i. by apply day_chunks_lookup.
  - subst i. rewrite Z2Nat.id by done. unfold DAY in *. lia.
Qed.

(** X12.  In a process whose time zone is UTC, for a request that starts
    and ends within the first [2^31] days of the epoch, start no later than
    end, and none of whose tasks fails, the chunks for which a task is
    started cover the whole requested interval: every instant from the
    start to the end of the request, as they were passed in, lies in one of
    them. *)
Theorem X12_utc_chunks_cover_the_request E w opts :
  timezoneOffset E = 0 ->
  reliable E -> supported (IntervalAlpaca.interval opts) -> readable w ->
  0 <= IntervalAlpaca.start opts <= IntervalAlpaca.end_ opts ->
  IntervalAlpaca.end_ opts < 2 ^ 31 * DAY ->
  exists fuel s candles,
    IntervalAlpaca.getHistoryIntervalAlpaca E fuel w opts = Returned s candles /\
    forall t,
      IntervalAlpaca.start opts <= t <= IntervalAlpaca.end_ opts ->
      exists a b, (a, b) ∈ chunks (IntervalAlpaca.log s) /\ a <= t < b.
Proof.
  intros Hutc Hrel Hsup Hw [Hstart Hle] Hend.
  assert (Hb : IntervalAlpaca.normalized_start E opts
               = IntervalAlpaca.start opts / DAY * DAY).
  { unfold IntervalAlpaca.normalized_start. rewrite Hutc, trunc_div_day by lia.
    unfold DAY. lia. }
  assert (He : IntervalAlpaca.normalized_end opts
               = IntervalAlpaca.end_ opts / DAY * DAY).
  { unfold IntervalAlpaca.normalized_end. rewrite trunc_div_day by lia.
    unfold DAY. lia. }
  pose proof (Z.div_le_mono _ _ DAY ltac:(done) Hle) as Hdays.
  pose proof (Z.mul_div_le (IntervalAlpaca.start opts) DAY ltac:(done)) as Hs1.
  pose proof (Z.mul_succ_div_gt (IntervalAlpaca.end_ opts) DAY ltac:(done)) as He1.
  destruct (interval_returns_when_reliable E w opts Hrel Hsup Hw)
    as (s & candles & Hret & Hchunks); [rewrite Hb, He; unfold DAY in *; lia |].
  eexists _, s, candles. split; [exact Hret |].
  intros t [Ht1 Ht2]. rewrite Hchunks. apply day_chunks_cover.
  rewrite Hb, He, Nat2Z.inj_succ.
  replace (IntervalAlpaca.end_ opts / DAY * DAY - IntervalAlpaca.start opts / DAY * DAY)
    with ((IntervalAlpaca.end_ opts / DAY - IntervalAlpaca.start opts / DAY) * DAY) by lia.
  rewrite Z.div_mul by done. rewrite Z2Nat.id by lia.
  unfold DAY in *. lia.
Qed.

Lemma X12_witness :
  let opts := Fixture.range (Fixture.monday + 5) (Fixture.monday + DAY + 7) "day" in
  exists fuel s candles,
    IntervalAlpaca.getHistoryIntervalAlpaca Fixture.utc fuel Fixture.fresh opts
      = Returned s candles /\
    forall t,
      IntervalAlpaca.start opts <= t <= IntervalAlpaca.end_ opts ->
      exists a b, (a, b) ∈ chunks (IntervalAlpaca.log s) /\ a <= t < b.
Proof.
  intros opts.
  apply (X12_utc_chunks_cover_the_request Fixture.utc Fixture.fresh opts eq_refl
           utc_reliable day_supported fresh_readable); vm_compute; by try split.
Defined.

(** ** Batches that fail in the explicit-range entry point *)

Lemma interval_iteration_to E opts s :
  IntervalAlpaca.to (snd (IntervalAlpaca.iteration E opts s))
  = IntervalAlpaca.from s + DAY.
Proof.
  unfold IntervalAlpaca.iteration. change (86400 * 1000) with DAY.
  destruct (requestDay _ _ _ _ _ _) as [[w1 evs] promise].
  destruct (_ || _); [destruct (collectCandles _) as [e | [missed data]] |];
    reflexivity.
Qed.

(** X13.  When a flush fails in a turn whose chunk ends after the
    normalised end, the explicit-range loop stops at the next loop test,
    whatever fuel is left: the batch is not tried again and no error
    reaches the caller; the committed list is what it was before the turn,
    and the failure counter has been raised by one. *)
Theorem X13_failed_last_batch_is_not_retried E opts s e fuel :
  fst (IntervalAlpaca.iteration E opts s) = Failed e ->
  IntervalAlpaca.normalized_end opts < IntervalAlpaca.from s + DAY ->
  let s' := snd (IntervalAlpaca.iteration E opts s) in
  IntervalAlpaca.loop E opts fuel s' = Returned s' tt /\
  IntervalAlpaca.result s' = IntervalAlpaca.result s /\
  IntervalAlpaca.tries s' = S (IntervalAlpaca.tries s).
Proof.
  intros Hfail Hlast s'. split.
  - apply interval_loop_exit. subst s'. rewrite interval_iteration_to. exact Hlast.
  - subst s'. revert Hfail. unfold IntervalAlpaca.iteration.
    destruct (requestDay _ _ _ _ _ _) as [[w1 evs] promise].
    destruct (_ || _); [destruct (collectCandles _) as [e' | [missed data]] |];
      try discriminate.
    intros _. split; reflexivity.
Qed.

Lemma X13_witness :
  let opts := Fixture.range Fixture.monday (Fixture.monday + 3600000) "day" in
  let s := IntervalAlpaca.initial Fixture.stubborn Fixture.fresh opts in
  let s' := snd (IntervalAlpaca.iteration Fixture.stubborn opts s) in
  fst (IntervalAlpaca.iteration Fixture.stubborn opts s)
    = Failed (ProviderError None "service unavailable") /\
  IntervalAlpaca.loop Fixture.stubborn opts 7 s' = Returned s' tt /\
  IntervalAlpaca.result s' = IntervalAlpaca.result s /\
  IntervalAlpaca.tries s' = S (IntervalAlpaca.tries s).
Proof.
  intros opts s s'.
  assert (Hfail : fst (IntervalAlpaca.iteration Fixture.stubborn opts s)
                  = Failed (ProviderError None "service unavailable"))
    by (vm_compute; reflexivity).
  split; [exact Hfail |].
  apply (X13_failed_last_batch_is_not_retried Fixture.stubborn opts s _ 7 Hfail).
  vm_compute. reflexivity.
Defined.

(** With an unsupported time frame a task leaves the world as it was. *)
Lemma requestDay_offline_world E w from to ticker interval e :
  convertTimeFrame interval = inl e ->
  (requestDay E w from to ticker interval).1.1 = w.
Proof.
  intros Htf. unfold requestDay.
  destruct (isWeekend E from); [done |].
  destruct (readFile w _) as [t |]; [by destruct (JSON_parse t) |].
  by rewrite Htf.
Qed.

Lemma interval_iteration_stuck E opts w e s :
  let b := IntervalAlpaca.normalized_start E opts in
  let e' := IntervalAlpaca.normalized_end opts in
  convertTimeFrame (IntervalAlpaca.interval opts) = inl e ->
  isWeekend E b = false ->
  readFile w (getPath (IntervalAlpaca.ticker opts) (IntervalAlpaca.interval opts)
                b (b + DAY)) = None ->
  b <> 0 -> b + 50 * DAY <= e' ->
  stuck w b e' e s -> stuck w b e' e (snd (IntervalAlpaca.iteration E opts s)).
Proof.
  intros b e' Htf Hwe Hmiss Hb Hlong (Hw & Hto & Hlen & Hfrom & Hcp & Hrej).
  pose proof (interval_iteration_checkpoint E opts b s Hb Hcp) as Hstep.
  pose proof (interval_iteration_world E opts s) as Hworld.
  pose proof (interval_iteration_to E opts s) as Hto'.
  rewrite (requestDay_offline_world _ _ _ _ _ _ e Htf), Hw in Hworld.
  assert (Hdoomed : forall promise,
            promise = (requestDay E (IntervalAlpaca.world s) (IntervalAlpaca.from s)
                         (IntervalAlpaca.from s + DAY) (IntervalAlpaca.ticker opts)
                         (IntervalAlpaca.interval opts)).2 ->
            first_rejection (IntervalAlpaca.reqs s ++ [promise]) = Some e).
  { intros promise ->. rewrite first_rejection_app.
    destruct Hrej as [Hnil | ->]; [| reflexivity].
    rewrite Hnil in *. simpl in Hfrom. rewrite Hfrom, Hw, Z.add_0_r.
    by rewrite (requestDay_unsupported _ _ _ _ _ _ e). }
  revert Hstep Hworld Hto'. unfold IntervalAlpaca.iteration.
  change (86400 * 1000) with DAY.
  destruct (requestDay _ _ _ _ _ _) as [[w1 evs] promise] eqn:Hrd.
  specialize (Hdoomed promise eq_refl).
  unfold collectCandles. rewrite Hdoomed.
  destruct (_ || _) eqn:Hflush; cbn [fst snd]; intros Hstep Hworld Hto';
    cbn [IntervalAlpaca.world IntervalAlpaca.to IntervalAlpaca.from
         IntervalAlpaca.reqs] in Hstep, Hworld, Hto';
    unfold stuck, checkpoint_is;
    cbn [IntervalAlpaca.world IntervalAlpaca.to IntervalAlpaca.from
         IntervalAlpaca.reqs IntervalAlpaca.chunkStart].
  - destruct Hstep as (Hfrom' & _ & _). rewrite Hfrom'.
    split_and!; [done | unfold DAY in *; lia | simpl; lia | simpl; lia
                | by right | by left].
  - destruct Hstep as (Hcp' & _).
    apply orb_false_iff in Hflush as [Hfifty Hend].
    apply Nat.eqb_neq in Hfifty. rewrite length_app in Hfifty. simpl in Hfifty.
    rewrite length_app. cbn [length].
    split_and!; [done | unfold DAY in *; lia | lia | unfold DAY in *; lia
                | exact Hcp' | by right].
Qed.

Lemma interval_loop_stuck E opts w e fuel :
  let b := IntervalAlpaca.normalized_start E opts in
  let e' := IntervalAlpaca.normalized_end opts in
  convertTimeFrame (IntervalAlpaca.interval opts) = inl e ->
  isWeekend E b = false ->
  readFile w (getPath (IntervalAlpaca.ticker opts) (IntervalAlpaca.interval opts)
                b (b + DAY)) = None ->
  b <> 0 -> b + 50 * DAY <= e' ->
  forall s, stuck w b e' e s -> exists s', IntervalAlpaca.loop E opts fuel s = Diverging s'.
Proof.
  intros b e' Htf Hwe Hmiss Hb Hlong.
  induction fuel as [| fuel IH]; intros s Hs;
    pose proof Hs as (_ & Hto & _); simpl;
    (destruct (Z.leb_spec (IntervalAlpaca.to s) (IntervalAlpaca.normalized_end opts));
     [| subst e'; lia]).
  - by eexists.
  - apply IH. by apply interval_iteration_stuck.
Qed.

(** X14.  With an unsupported time frame, a normalised range of at least
    50 days that starts, not at the epoch, on a day that is no weekend day
    and has no cache file never ends in the explicit-range entry point:
    whatever the fuel, the retrieval is still running when the fuel is
    spent.  The first batch is flushed, fails, and is started over for
    ever. *)
Theorem X14_unsupported_timeframe_retries_for_ever E w opts e fuel :
  let b := IntervalAlpaca.normalized_start E opts in
  convertTimeFrame (IntervalAlpaca.interval opts) = inl e ->
  isWeekend E b = false ->
  readFile w (getPath (IntervalAlpaca.ticker opts) (IntervalAlpaca.interval opts)
                b (b + DAY)) = None ->
  b <> 0 -> b + 50 * DAY <= IntervalAlpaca.normalized_end opts ->
  exists s, IntervalAlpaca.getHistoryIntervalAlpaca E fuel w opts = Diverging s.
Proof.
  intros b Htf Hwe Hmiss Hb Hlong.
  destruct (interval_loop_stuck E opts w e fuel Htf Hwe Hmiss Hb Hlong
              (IntervalAlpaca.initial E w opts)) as [s Hloop].
  - unfold stuck, IntervalAlpaca.initial; cbn.
    split_and!; try done; try (fold b; unfold DAY in *; lia). by left. by left.
  - exists s. unfold IntervalAlpaca.getHistoryIntervalAlpaca. by rewrite Hloop.
Qed.

Lemma X14_witness :
  let opts := Fixture.range Fixture.monday (Fixture.monday + 60 * DAY) "5min" in
  exists s,
    IntervalAlpaca.getHistoryIntervalAlpaca Fixture.utc 1000 Fixture.fresh opts
    = Diverging s.
Proof.
  intros opts.
  apply (X14_unsupported_timeframe_retries_for_ever Fixture.utc Fixture.fresh opts
           (UnsupportedTimeFrame "Alpaca integration does not support 5min timeframe"));
    vm_compute; congruence.
Defined.

(** ** Retrieving the same range twice *)

Lemma concat_days_app res1 res2 :
  (concat_days (res1 ++ res2)).2 = (concat_days res1).2 ++ (concat_days res2).2.
Proof.
  induction res1 as [| [[candles |] | e] res1 IH]; simpl; auto;
    destruct (concat_days (res1 ++ res2)), (concat_days res1); simpl in *;
    rewrite ?IH, ?app_assoc; reflexivity.
Qed.

Lemma concat_days_resolved value : (concat_days [Resolved value]).2 = candles_of value.
Proof. destruct value; simpl; by rewrite ?app_nil_r. Qed.

(** A task that is served without the provider reads at most its cache
    file and leaves the world as it was. *)
Lemma requestDay_served E w ticker interval a value :
  served_value E w ticker interval a = Some value ->
  exists evs,
    requestDay E w a (a + DAY) ticker interval = (w, evs, Resolved value) /\
    Forall (fun ev => is_offline ev = true) evs.
Proof.
  unfold served_value, requestDay, readFile.
  destruct (isWeekend E a); [intros [= <-]; eexists; split; [reflexivity | constructor] |].
  destruct (files w !! _) as [[| v | why] |]; try discriminate.
  intros [= <-]. eexists. split; [reflexivity |]. by repeat constructor.
Qed.

(** On a day that is not the current day, the task of a provider that
    answers leaves the day served, with the value it resolved to. *)
Lemma requestDay_serves E w ticker interval a :
  reliable E -> supported interval -> readable w ->
  (forall k, isSameDay E (clock E k) a = false) ->
  exists w1 evs value,
    requestDay E w a (a + DAY) ticker interval = (w1, evs, Resolved value) /\
    readable w1 /\
    served_value E w1 ticker interval a = Some value.
Proof.
  intros Hrel [tf Htf] Hw Hpast. unfold requestDay, served_value, readFile.
  destruct (isWeekend E a); [by eexists _, _, _ |].
  destruct (files w !! getPath ticker interval a (a + DAY)) as [[| v | why] |] eqn:Hfile.
  - rewrite Htf. destruct (Hrel (calls w) ticker a (a + DAY) tf) as [bars ->].
    rewrite Hpast. eexists _, _, _. split; [reflexivity |].
    split; [by apply saveDay_readable |]. cbn. by rewrite lookup_insert_eq.
  - eexists _, _, _. split; [reflexivity |]. split; [done |]. by rewrite Hfile.
  - exfalso. by apply (Hw _ _ Hfile).
  - rewrite Htf. destruct (Hrel (calls w) ticker a (a + DAY) tf) as [bars ->].
    rewrite Hpast. eexists _, _, _. split; [reflexivity |].
    split; [by apply saveDay_readable |]. cbn. by rewrite lookup_insert_eq.
Qed.

(** A day that is served stays served, with the same value, whatever task
    runs next. *)
Lemma served_value_stable E w ticker interval a value from to :
  served_value E w ticker interval a = Some value ->
  served_value E (requestDay E w from to ticker interval).1.1 ticker interval a
  = Some value.
Proof.
  unfold served_value. destruct (isWeekend E a); [done |].
  destruct (files w !! getPath ticker interval a (a + DAY)) as [[| v | why] |] eqn:Hfile;
    try discriminate.
  intros [= <-].
  by rewrite (requestDay_keeps_files E w from to ticker interval _ _ Hfile).
Qed.

Lemma served_candles_stable E w ticker interval days from to :
  Forall (fun day => is_Some (served_value E w ticker interval day.1)) days ->
  served_candles E (requestDay E w from to ticker interval).1.1 ticker interval days
  = served_candles E w ticker interval days.
Proof.
  induction 1 as [| day days [value Hday] _ IH]; [done |].
  unfold served_candles in *. simpl. rewrite IH.
  by rewrite (served_value_stable _ _ _ _ _ value), Hday.
Qed.

Lemma served_candles_app E w ticker interval days1 days2 :
  served_candles E w ticker interval (days1 ++ days2)
  = served_candles E w ticker interval days1
    ++ served_candles E w ticker interval days2.
Proof. unfold served_candles. apply flat_map_app. Qed.

Lemma interval_iteration_replayable E opts s :
  reliable E -> supported (IntervalAlpaca.interval opts) ->
  historical E (IntervalAlpaca.normalized_end opts) ->
  replayable E opts s ->
  IntervalAlpaca.to s <= IntervalAlpaca.normalized_end opts ->
  replayable E opts (snd (IntervalAlpaca.iteration E opts s)).
Proof.
  intros Hrel Hsup Hpast (Hto & Hnone & Hw & Hserved & Hresult) Hin.
  destruct (requestDay_serves E (IntervalAlpaca.world s) (IntervalAlpaca.ticker opts)
              (IntervalAlpaca.interval opts) (IntervalAlpaca.from s) Hrel Hsup Hw)
    as (w1 & evs & value & Hrd & Hw1 & Hval);
    [intros k; apply Hpast; lia |].
  pose proof (requestDay_events E (IntervalAlpaca.world s) (IntervalAlpaca.from s)
                (IntervalAlpaca.from s + DAY) (IntervalAlpaca.ticker opts)
                (IntervalAlpaca.interval opts)) as Hevs.
  pose proof (served_candles_stable E (IntervalAlpaca.world s) (IntervalAlpaca.ticker opts)
                (IntervalAlpaca.interval opts) (chunks (IntervalAlpaca.log s))
                (IntervalAlpaca.from s) (IntervalAlpaca.from s + DAY)) as Hstable.
  assert (Hserved1 :
            Forall (fun day => day.2 = day.1 + DAY /\
                      is_Some (served_value E w1 (IntervalAlpaca.ticker opts)
                                 (IntervalAlpaca.interval opts) day.1))
                   (chunks (IntervalAlpaca.log s))).
  { eapply Forall_impl; [exact Hserved |]. intros day [Hday [v Hv]].
    split; [exact Hday |]. exists v.
    pose proof (served_value_stable E _ _ _ _ v (IntervalAlpaca.from s)
                  (IntervalAlpaca.from s + DAY) Hv) as Hst.
    by rewrite Hrd in Hst. }
  rewrite Hrd in Hevs, Hstable; simpl in Hevs, Hstable.
  apply fetch_events_silent in Hevs as (Hc & _ & _).
  specialize (Hstable ltac:(eapply Forall_impl; [exact Hserved |]; by intros day [_ Hday])).
  assert (Hchunks : chunks (IntervalAlpaca.log s ++
                      EvEnqueue (IntervalAlpaca.from s) (IntervalAlpaca.from s + DAY) :: evs)
                    = chunks (IntervalAlpaca.log s)
                      ++ [(IntervalAlpaca.from s, IntervalAlpaca.from s + DAY)]).
  { rewrite chunks_app.
    change (chunks (EvEnqueue ?a ?b :: ?r)) with ((a, b) :: chunks r). by rewrite Hc. }
  assert (Hall : Forall (fun day => day.2 = day.1 + DAY /\
                           is_Some (served_value E w1 (IntervalAlpaca.ticker opts)
                                      (IntervalAlpaca.interval opts) day.1))
                   (chunks (IntervalAlpaca.log s)
                    ++ [(IntervalAlpaca.from s, IntervalAlpaca.from s + DAY)])).
  { apply Forall_app_2; [exact Hserved1 |]. constructor; [| constructor].
    split; [reflexivity | by eexists]. }
  assert (Hcandles :
            served_candles E w1 (IntervalAlpaca.ticker opts) (IntervalAlpaca.interval opts)
              (chunks (IntervalAlpaca.log s)
               ++ [(IntervalAlpaca.from s, IntervalAlpaca.from s + DAY)])
            = IntervalAlpaca.result s
              ++ (concat_days (IntervalAlpaca.reqs s ++ [Resolved value])).2).
  { rewrite served_candles_app, Hstable, <- Hresult, concat_days_app,
      concat_days_resolved, <- app_assoc.
    do 2 f_equal. unfold served_candles. simpl. by rewrite Hval, app_nil_r. }
  unfold IntervalAlpaca.iteration. change (86400 * 1000) with DAY. rewrite Hrd.
  rewrite (collect_resolved _ _ Hnone).
  pose proof (concat_days_events (IntervalAlpaca.reqs s ++ [Resolved value])) as Hmissed.
  destruct (concat_days (IntervalAlpaca.reqs s ++ [Resolved value])) as [missed data]
    eqn:Hdays.
  simpl in Hmissed. apply missed_events_silent in Hmissed as (Hmc & _ & _).
  cbn [snd] in Hcandles.
  destruct (_ || _); unfold replayable;
    cbn [snd IntervalAlpaca.to IntervalAlpaca.from IntervalAlpaca.reqs
         IntervalAlpaca.world IntervalAlpaca.log IntervalAlpaca.result
         IntervalAlpaca.ticker IntervalAlpaca.interval].
  - rewrite chunks_app, Hchunks.
    change (chunks (EvFlush ?n ?f :: ?r)) with (chunks r). rewrite Hmc, app_nil_r.
    split_and!; [done | done | done | exact Hall |].
    simpl. by rewrite app_nil_r, Hcandles.
  - rewrite Hchunks.
    split_and!; [done | by rewrite first_rejection_app, Hnone | done | exact Hall |].
    by rewrite Hdays, Hcandles.
Qed.

Lemma interval_iteration_replaying E opts w s :
  (forall a, on_grid (IntervalAlpaca.normalized_start E opts) a ->
             a <= IntervalAlpaca.normalized_end opts ->
             is_Some (served_value E w (IntervalAlpaca.ticker opts)
                        (IntervalAlpaca.interval opts) a)) ->
  replaying E opts w s ->
  IntervalAlpaca.to s <= IntervalAlpaca.normalized_end opts ->
  replaying E opts w (snd (IntervalAlpaca.iteration E opts s)).
Proof.
  intros Hserved (Hsteady & Hworld & Hlog) Hin.
  split; [by apply interval_iteration_steady |].
  destruct Hsteady as (_ & _ & Hgrid & Hle & _).
  destruct (Hserved (IntervalAlpaca.from s) Hgrid ltac:(lia)) as [value Hvalue].
  rewrite <- Hworld in Hvalue.
  destruct (requestDay_served _ _ _ _ _ _ Hvalue) as (evs & Hrd & Hevs).
  unfold IntervalAlpaca.iteration. change (86400 * 1000) with DAY. rewrite Hrd.
  pose proof (concat_days_events (IntervalAlpaca.reqs s ++ [Resolved value])) as Hmissed.
  unfold collectCandles.
  destruct (_ || _); [destruct (first_rejection _) |];
    [| destruct (concat_days _) as [missed data]; simpl in Hmissed |];
    cbn [snd IntervalAlpaca.world IntervalAlpaca.log];
    (split; [exact Hworld |]);
    repeat first
      [ assumption
      | apply Forall_nil_2
      | apply Forall_app_2
      | apply Forall_cons_2; [reflexivity |]
      | (eapply Forall_impl; [exact Hmissed |]; by intros ev ->) ].
Qed.

Lemma interval_returned_idle E fuel w opts s candles :
  IntervalAlpaca.getHistoryIntervalAlpaca E fuel w opts = Returned s candles ->
  IntervalAlpaca.reqs s = [] /\
  s = final (IntervalAlpaca.loop E opts fuel (IntervalAlpaca.initial E w opts)) /\
  candles = List.filter
              (fun candle => (time candle >=? IntervalAlpaca.start opts)
                             && (time candle <=? IntervalAlpaca.end_ opts))
              (IntervalAlpaca.result s).
Proof.
  intros Hret.
  pose proof (interval_final_steady E fuel w opts) as (_ & Hflight & _).
  rewrite Hret in Hflight. cbn [final] in Hflight.
  unfold IntervalAlpaca.getHistoryIntervalAlpaca in Hret.
  destruct (IntervalAlpaca.loop E opts fuel _) as [s' u | |] eqn:Hloop; try discriminate.
  injection Hret as <- <-. apply interval_loop_returned in Hloop.
  split; [destruct Hflight as [Hnil | Hlt]; [exact Hnil | lia] |]. by split.
Qed.

Lemma interval_final_replayable E fuel w opts :
  reliable E -> supported (IntervalAlpaca.interval opts) -> readable w ->
  historical E (IntervalAlpaca.normalized_end opts) ->
  replayable E opts
    (final (IntervalAlpaca.loop E opts fuel (IntervalAlpaca.initial E w opts))).
Proof.
  intros Hrel Hsup Hw Hpast. apply interval_loop_invariant.
  - intros s. by apply interval_iteration_replayable.
  - unfold replayable, IntervalAlpaca.initial; cbn.
    split_and!; try done; apply Forall_nil_2.
Qed.

Lemma utc_historical e' :
  e' + DAY <= Fixture.monday + 60 * DAY -> historical Fixture.utc e'.
Proof.
  intros Hbefore k a Ha. unfold isSameDay.
  change (timezoneOffset Fixture.utc) with 0.
  change (clock Fixture.utc k) with (Fixture.monday + 60 * DAY + 3600000).
  apply Z.eqb_neq. intros Heq.
  assert (Hnow : (Fixture.monday + 60 * DAY + 3600000 - 0 * 60 * 1000) / DAY = 18691)
    by reflexivity.
  assert (Hday : (a - 0 * 60 * 1000) / DAY <= (Fixture.monday + 59 * DAY) / DAY)
    by (apply Z.div_le_mono; [done | unfold DAY in *; lia]).
  change ((Fixture.monday + 59 * DAY) / DAY) with 18690 in Hday. lia.
Qed.

(** X15.  Retrieving the same historical range twice: with a provider that
    answers, a supported time frame, no damaged cache file, and a range
    none of whose days is the current day, the explicit-range entry point
    returns, and a second retrieval of the same range in the world the
    first one left returns the very same candle list without a single
    provider call or cache write, and leaves that world as it is. *)
Theorem X15_second_retrieval_is_served_from_cache E w opts :
  reliable E -> supported (IntervalAlpaca.interval opts) -> readable w ->
  historical E (IntervalAlpaca.normalized_end opts) ->
  IntervalAlpaca.normalized_start E opts <= IntervalAlpaca.normalized_end opts ->
  exists fuel s1 candles,
    IntervalAlpaca.getHistoryIntervalAlpaca E fuel w opts = Returned s1 candles /\
    exists s2,
      IntervalAlpaca.getHistoryIntervalAlpaca E fuel (IntervalAlpaca.world s1) opts
        = Returned s2 candles /\
      IntervalAlpaca.world s2 = IntervalAlpaca.world s1 /\
      Forall (fun ev => is_offline ev = true) (IntervalAlpaca.log s2).
Proof.
  intros Hrel Hsup Hw Hpast Hle.
  set (b := IntervalAlpaca.normalized_start E opts) in *.
  set (e' := IntervalAlpaca.normalized_end opts) in *.
  destruct (interval_returns_when_reliable E w opts Hrel Hsup Hw Hle)
    as (s1 & c1 & Hret1 & Hchunks1).
  fold b e' in Hret1, Hchunks1. set (m := S (Z.to_nat ((e' - b) / DAY))) in *.
  destruct (interval_returned_idle _ _ _ _ _ _ Hret1) as (Hidle1 & Hs1 & Hc1).
  pose proof (interval_final_replayable E m w opts Hrel Hsup Hw Hpast) as Hrep1.
  rewrite <- Hs1 in Hrep1. destruct Hrep1 as (_ & _ & Hw1 & Hserved1 & Hresult1).
  rewrite Hidle1 in Hresult1. simpl in Hresult1. rewrite app_nil_r in Hresult1.
  (* every day of the range is served in the world the first retrieval left *)
  assert (Hgrid : forall a, on_grid b a -> a <= e' ->
            is_Some (served_value E (IntervalAlpaca.world s1) (IntervalAlpaca.ticker opts)
                       (IntervalAlpaca.interval opts) a)).
  { intros a (k & Hk & ->) Ha.
    assert (Hkm : (Z.to_nat k < m)%nat).
    { subst m. apply Nat2Z.inj_lt. rewrite Nat2Z.inj_succ, !Z2Nat.id; try lia.
      - assert (k <= (e' - b) / DAY) by (apply Z.div_le_lower_bound; unfold DAY in *; lia).
        lia.
      - apply Z.div_pos; unfold DAY; lia. }
    rewrite Forall_forall in Hserved1.
    destruct (Hserved1 (b + k * DAY, b + k * DAY + DAY)) as [_ Hsome]; [| exact Hsome].
    rewrite Hchunks1. apply list_elem_of_lookup. exists (Z.to_nat k).
    rewrite day_chunks_lookup by done. by rewrite Z2Nat.id. }
  (* the second retrieval *)
  destruct (interval_returns_when_reliable E (IntervalAlpaca.world s1) opts Hrel Hsup Hw1 Hle)
    as (s2 & c2 & Hret2 & Hchunks2).
  fold b e' m in Hret2, Hchunks2.
  destruct (interval_returned_idle _ _ _ _ _ _ Hret2) as (Hidle2 & Hs2 & Hc2).
  pose proof (interval_final_replayable E m (IntervalAlpaca.world s1) opts
                Hrel Hsup Hw1 Hpast) as Hrep2.
  rewrite <- Hs2 in Hrep2. destruct Hrep2 as (_ & _ & _ & _ & Hresult2).
  rewrite Hidle2 in Hresult2. simpl in Hresult2. rewrite app_nil_r in Hresult2.
  assert (Hquiet : replaying E opts (IntervalAlpaca.world s1) s2).
  { rewrite Hs2. apply interval_loop_invariant.
    - intros s. by apply interval_iteration_replaying.
    - split; [apply interval_initial_steady |]. split; [reflexivity | constructor]. }
  destruct Hquiet as (_ & Hworld2 & Hlog2).
  exists m, s1, c1. split; [exact Hret1 |].
  exists s2. split; [| by split].
  rewrite Hret2. f_equal.
  rewrite Hc1, Hc2, Hresult1, Hresult2, Hworld2, Hchunks1, Hchunks2. reflexivity.
Qed.

Lemma X15_witness :
  let opts := Fixture.range Fixture.monday (Fixture.monday + 2 * DAY) "day" in
  exists fuel s1 candles,
    IntervalAlpaca.getHistoryIntervalAlpaca Fixture.utc fuel Fixture.fresh opts
      = Returned s1 candles /\
    exists s2,
      IntervalAlpaca.getHistoryIntervalAlpaca Fixture.utc fuel (IntervalAlpaca.world s1) opts
        = Returned s2 candles /\
      IntervalAlpaca.world s2 = IntervalAlpaca.world s1 /\
      Forall (fun ev => is_offline ev = true) (IntervalAlpaca.log s2).
Proof.
  intros opts.
  apply (X15_second_retrieval_is_served_from_cache Fixture.utc Fixture.fresh opts
           utc_reliable day_supported fresh_readable).
  - apply utc_historical. vm_compute. discriminate.
  - vm_compute. discriminate.
Defined.

(** The second retrieval of two days of the fixture: both candles again,
    and the call counter where the first retrieval left it. *)
Example second_retrieval_makes_no_call :
  let opts := Fixture.range Fixture.monday (Fixture.monday + 2 * DAY) "day" in
  let first := IntervalAlpaca.getHistoryIntervalAlpaca Fixture.utc 5 Fixture.fresh opts in
  let second :=
    IntervalAlpaca.getHistoryIntervalAlpaca Fixture.utc 5
      (IntervalAlpaca.world (final first)) opts in
  calls (IntervalAlpaca.world (final first)) = 3%nat /\
  calls (IntervalAlpaca.world (final second)) = 3%nat /\
  exists s candles,
    second = Returned s candles /\
    time <$> candles = [Fixture.monday + 52200000; Fixture.monday + DAY + 52200000].
Proof. vm_compute. repeat split. by eexists _, _. Qed.

(** ** Collecting a batch *)

Lemma first_rejection_elem reqs e : first_rejection reqs = Some e -> Rejected e ∈ reqs.
Proof.
  induction reqs as [| [value | e'] reqs IH]; simpl; [done | |].
  - intros Hrej. right. by apply IH.
  - intros [= ->]. left.
Qed.

Lemma first_rejection_none reqs e : first_rejection reqs = None -> Rejected e ∉ reqs.
Proof.
  induction reqs as [| [value | e'] reqs IH]; simpl; intros Hnone Hin.
  - by apply not_elem_of_nil in Hin.
  - apply elem_of_cons in Hin as [[=] | Hin]. by apply IH.
  - discriminate.
Qed.

(** X16.  [collectCandles] is all or nothing.  It fails exactly when a task
    of the batch was rejected, with the rejection of such a task, and then
    yields no candle at all.  Otherwise it yields the candles of the tasks
    in the order in which the tasks were started, leaving out the tasks
    that resolved to [null] and the [null] entries of the others, and logs
    one line for every task that resolved to [null]. *)
Theorem X16_collect_is_all_or_nothing reqs :
  match collectCandles reqs with
  | inl e => Rejected e ∈ reqs
  | inr (evs, candles) =>
      (forall e, Rejected e ∉ reqs) /\
      candles = flat_map contribution reqs /\
      evs = replicate (length (List.filter is_missed reqs)) (EvLog LogMissedData)
  end.
Proof.
  unfold collectCandles.
  destruct (first_rejection reqs) as [e |] eqn:Hrej;
    [by apply first_rejection_elem |].
  destruct (concat_days reqs) as [evs candles] eqn:Hdays.
  split; [intros e; by apply first_rejection_none |].
  clear Hrej. revert evs candles Hdays.
  induction reqs as [| [[cs |] | e] reqs IH]; simpl; intros evs candles.
  - by intros [= <- <-].
  - destruct (concat_days reqs) as [evs' candles']. intros [= <- <-].
    destruct (IH _ _ eq_refl) as [-> ->]. by split.
  - destruct (concat_days reqs) as [evs' candles']. intros [= <- <-].
    destruct (IH _ _ eq_refl) as [-> ->]. by split.
  - intros Hdays. by apply IH.
Qed.

(** ** Rewinding *)

(** X18.  In the explicit-range entry point, take any state the loop is in
    after some number of turns in which no task is in flight and the cursor
    is not the instant 0, and suppose the next [k] turns only enqueue and
    the turn after them has its flush fail.  Then the cursor is back where
    that batch began, no task is in flight, and the committed list is what
    it was when the batch began: nothing of the failed batch is kept. *)
Theorem X18_failed_batch_rewinds_to_its_start E w opts n k e :
  let s0 := turns E opts n (IntervalAlpaca.initial E w opts) in
  IntervalAlpaca.reqs s0 = [] ->
  IntervalAlpaca.from s0 <> 0 ->
  (forall j, (j < k)%nat ->
             fst (IntervalAlpaca.iteration E opts (turns E opts j s0)) = Enqueued) ->
  fst (IntervalAlpaca.iteration E opts (turns E opts k s0)) = Failed e ->
  IntervalAlpaca.from (turns E opts (S k) s0) = IntervalAlpaca.from s0 /\
  IntervalAlpaca.result (turns E opts (S k) s0) = IntervalAlpaca.result s0 /\
  IntervalAlpaca.reqs (turns E opts (S k) s0) = [].
Proof.
  intros s0 Hidle Hfrom Henq Hfail.
  apply (failed_batch_rewinds E opts s0 k e Hfrom); [| exact Henq | exact Hfail].
  by apply batch_start_checkpoint.
Qed.

Lemma X18_witness :
  let opts := Fixture.range Fixture.monday (Fixture.monday + 2 * DAY) "day" in
  let s0 := turns Fixture.flaky opts 0 (IntervalAlpaca.initial Fixture.flaky Fixture.fresh opts) in
  IntervalAlpaca.from (turns Fixture.flaky opts 2 s0) = IntervalAlpaca.from s0 /\
  IntervalAlpaca.result (turns Fixture.flaky opts 2 s0) = IntervalAlpaca.result s0 /\
  IntervalAlpaca.reqs (turns Fixture.flaky opts 2 s0) = [].
Proof.
  intros opts s0.
  apply (X18_failed_batch_rewinds_to_its_start Fixture.flaky Fixture.fresh opts 0 1
           (ProviderError (Some 429) "too many requests")).
  - reflexivity.
  - vm_compute. discriminate.
  - intros j Hj. replace j with 0%nat by lia. vm_compute. reflexivity.
  - vm_compute. reflexivity.
Defined.

(** ** Errors in the fixed-window entry point *)





(** ** Backing off in the explicit-range entry point *)






